(** * claude-files: the transcript converter and the command blocker

    A shallow embedding of [skills/export-to-md/convert.py] and
    [hooks/dangerous-command-blocker.py], and the properties of the
    natural-language specification checked against it.

    Python strings are sequences of Unicode code points; they are modelled
    as lists of code points ([N]), so that [len], slicing, [strip], [split]
    and the regular expressions of the source count what Python counts. *)

From Stdlib Require Import String Ascii.
From Stdlib Require Import List NArith ZArith Bool Arith Lia.
Import ListNotations.

Set Implicit Arguments.

(** ** Python strings *)

Module Py.

Definition str := list N.

(** Reading a literal of this file (UTF-8 bytes) as code points. *)
Fixpoint utf8_decode (bs : list N) : str :=
  match bs with
  | [] => []
  | b :: r =>
    if (b <? 128)%N then b :: utf8_decode r
    else if (b <? 224)%N then
      match r with
      | b1 :: r1 => ((b - 192) * 64 + (b1 - 128))%N :: utf8_decode r1
      | _ => []
      end
    else if (b <? 240)%N then
      match r with
      | b1 :: b2 :: r2 =>
        ((b - 224) * 4096 + (b1 - 128) * 64 + (b2 - 128))%N :: utf8_decode r2
      | _ => []
      end
    else
      match r with
      | b1 :: b2 :: b3 :: r3 =>
        ((b - 240) * 262144 + (b1 - 128) * 4096 + (b2 - 128) * 64 + (b3 - 128))%N
          :: utf8_decode r3
      | _ => []
      end
  end.

Definition u (s : string) : str :=
  utf8_decode (List.map N_of_ascii (list_ascii_of_string s)).

Definition NL : N := 10%N.
Definition ESC : N := 27%N.
Definition DQUOTE : N := 34%N.

(** Truthiness of a string or of a list: non-empty. *)
Definition truthy {A} (l : list A) : bool :=
  match l with [] => false | _ :: _ => true end.

(** [str.isspace] for one character, which is also what [\s] matches in a
    [str] pattern and what [strip], [lstrip] and [rstrip] remove. *)
Definition isspace (c : N) : bool :=
  ((9 <=? c) && (c <=? 13) || (28 <=? c) && (c <=? 32)
   || (c =? 133) || (c =? 160) || (c =? 5760)
   || (8192 <=? c) && (c <=? 8202)
   || (c =? 8232) || (c =? 8233) || (c =? 8239) || (c =? 8287)
   || (c =? 12288))%N.

(** The first code point of every run of ten decimal digits (Unicode
    category Nd, the characters [\d] matches in a [str] pattern, as of
    Unicode 14); the mathematical digits U+1D7CE..U+1D7FF form one run of
    fifty. *)
Definition decimal_runs : list N :=
  [48; 1632; 1776; 1984; 2406; 2534; 2662; 2790; 2918; 3046; 3174; 3302;
   3430; 3558; 3664; 3792; 3872; 4160; 4240; 6112; 6160; 6470; 6608; 6784;
   6800; 6992; 7088; 7232; 7248; 42528; 43216; 43264; 43472; 43504; 43600;
   44016; 65296; 66720; 68912; 69734; 69872; 69942; 70096; 70384; 70736;
   70864; 71248; 71360; 71472; 71904; 72016; 72784; 73040; 73120; 92768;
   92864; 93008; 120782; 120792; 120802; 120812; 120822; 123200; 123632;
   125264; 130032]%N.

Definition isdecimal (c : N) : bool :=
  existsb (fun lo => (lo <=? c) && (c <? lo + 10))%N decimal_runs.

Fixpoint dropwhile (p : N -> bool) (s : str) : str :=
  match s with
  | [] => []
  | c :: s' => if p c then dropwhile p s' else s
  end.

(** Length of the longest prefix whose characters satisfy [p]: what a
    greedy [p*] consumes. *)
Fixpoint span_len (p : N -> bool) (s : str) : nat :=
  match s with
  | [] => 0
  | c :: s' => if p c then S (span_len p s') else 0
  end.

Definition lstrip (s : str) : str := dropwhile isspace s.

Fixpoint rstrip (s : str) : str :=
  match s with
  | [] => []
  | c :: s' =>
    match rstrip s' with
    | [] => if isspace c then [] else [c]
    | r => c :: r
    end
  end.

Definition strip (s : str) : str := rstrip (lstrip s).

Fixpoint startswith (s p : str) : bool :=
  match p, s with
  | [], _ => true
  | _ :: _, [] => false
  | a :: p', b :: s' => (a =? b)%N && startswith s' p'
  end.

(** [needle in hay] *)
Fixpoint contains (needle hay : str) : bool :=
  startswith hay needle
  || match hay with
     | [] => false
     | _ :: hay' => contains needle hay'
     end.

(** [s.split(sep)] for a one-character separator. *)
Fixpoint split (sep : N) (s : str) : list str :=
  match s with
  | [] => [[]]
  | c :: s' =>
    if (c =? sep)%N then [] :: split sep s'
    else match split sep s' with
         | [] => [[c]]
         | h :: t => (c :: h) :: t
         end
  end.

(** [sep.join(parts)] *)
Fixpoint join (sep : str) (parts : list str) : str :=
  match parts with
  | [] => []
  | [p] => p
  | p :: rest => p ++ sep ++ join sep rest
  end.

(** [s.replace(old, new)] for a one-character [old]. *)
Definition replace (old : N) (new : str) (s : str) : str :=
  flat_map (fun c => if (c =? old)%N then new else [c]) s.

(** [re.sub(pattern, '', text)] for a pattern that never matches the
    empty string. [m bol s] is the length of the match of the pattern at
    the head of [s], if there is one; [bol] tells whether that position is
    the start of the text or follows a newline (where [^] matches under
    [re.MULTILINE]). The scan deletes the leftmost match, resumes right
    after it, and copies every character at which no match starts. *)
Fixpoint sub_delete (m : bool -> str -> option nat)
         (skip : nat) (bol : bool) (s : str) : str :=
  match s with
  | [] => []
  | c :: s' =>
    match skip with
    | S k => sub_delete m k (c =? NL)%N s'
    | O =>
      match m bol s with
      | Some (S k) => sub_delete m k (c =? NL)%N s'
      | _ => c :: sub_delete m 0 (c =? NL)%N s'
      end
    end
  end.

End Py.

(** ** convert.py *)

Module Convert.
Import Py.

(** [BOX_CHARS]: the characters of the class, without its brackets. *)
Definition BOX_CHARS : str :=
  Eval vm_compute in u "╭╮╰╯│─┌┐└┘├┤┬┴┼═║╔╗╚╝╠╣╦╩╬▐▛▜▌▝▘".

Definition MARKER : N := 9210%N.      (* U+23FA, the response bullet *)
Definition FOOTER : N := 9151%N.      (* U+23BF *)
Definition THINKING : N := 10043%N.   (* U+273B *)
Definition ELLIPSIS : N := 8230%N.    (* U+2026 *)
Definition PROMPT : N := 10095%N.     (* U+276F, the user prompt glyph *)
Definition ARROW : N := 8594%N.       (* U+2192, ends a line-number prefix *)

(** The pattern [^\s*\d+→] at the head of [s]. The whitespace class and
    the digit class are disjoint and neither contains the arrow, so the
    greedy choices are the only ones that can succeed. *)
Definition line_number_match (bol : bool) (s : str) : option nat :=
  if bol then
    let w := span_len isspace s in
    let s1 := skipn w s in
    let d := span_len isdecimal s1 in
    match d, skipn d s1 with
    | S _, a :: _ => if (a =? ARROW)%N then Some (w + d + 1) else None
    | _, _ => None
    end
  else None.

Definition remove_line_numbers (text : str) : str :=
  sub_delete line_number_match 0 true text.

Definition is_box_char (c : N) : bool := existsb (N.eqb c) BOX_CHARS.

Definition remove_box_chars (text : str) : str :=
  filter (fun c => negb (is_box_char c)) text.

(** The pattern [\x1b\[[0-9;]*[mK]]: [ansi_tail] is the part after the
    bracket. *)
Definition is_ansi_param (c : N) : bool :=
  ((48 <=? c) && (c <=? 57) || (c =? 59))%N.

Fixpoint ansi_tail (s : str) : option nat :=
  match s with
  | [] => None
  | c :: s' =>
    if is_ansi_param c then option_map S (ansi_tail s')
    else if ((c =? 109) || (c =? 75))%N then Some 1
    else None
  end.

Definition ansi_match (bol : bool) (s : str) : option nat :=
  match s with
  | e :: b :: r =>
    if ((e =? ESC) && (b =? 91))%N
    then option_map (fun n => 2 + n) (ansi_tail r)
    else None
  | _ => None
  end.

Definition remove_ansi_codes (text : str) : str :=
  sub_delete ansi_match 0 true text.

(** [re.sub(r'\n{4,}', '\n\n\n', text)]: every maximal run of four or
    more newlines is cut to three; [run] counts the newlines of the
    current run already seen. *)
Fixpoint cap_newlines (run : nat) (text : str) : str :=
  match text with
  | [] => []
  | c :: s' =>
    if (c =? NL)%N then
      if run <? 3 then c :: cap_newlines (S run) s'
      else cap_newlines (S run) s'
    else c :: cap_newlines 0 s'
  end.

Fixpoint collapse_loop (lines : list str) (blank_count : nat) : list str :=
  match lines with
  | [] => []
  | line :: rest =>
    if negb (truthy (strip line)) then
      if S blank_count <=? 2 then [] :: collapse_loop rest (S blank_count)
      else collapse_loop rest (S blank_count)
    else line :: collapse_loop rest 0
  end.

Definition collapse_whitespace (text : str) : str :=
  let text := cap_newlines 0 text in
  let lines := split NL text in
  join [NL] (collapse_loop lines 0).

Definition clean_line (line : str) : str :=
  let line := remove_ansi_codes line in
  let line := remove_box_chars line in
  let line :=
    replace ELLIPSIS (u "...")
      (replace THINKING [] (replace FOOTER [] (replace MARKER [] line))) in
  rstrip line.

Definition is_user_prompt (line : str) : bool :=
  let stripped := strip line in
  startswith stripped [PROMPT].

Definition system_commands : list str :=
  Eval vm_compute in
  List.map u ["/rename"; "/help"; "/clear"; "/exit"; "/model"; "/logout";
              "/export"]%string.

Definition is_system_command (line : str) : bool :=
  let stripped := strip line in
  existsb (fun cmd => startswith stripped cmd) system_commands.

Definition system_responses : list str :=
  Eval vm_compute in
  List.map u ["Please provide a name for the session";
              "Session renamed to:";
              "Exported conversation to:";
              "Usage: /rename";
              "Usage: /help"]%string.

Definition is_system_response (line : str) : bool :=
  let stripped := strip line in
  existsb (fun resp => contains resp stripped) system_responses.

Definition banner_indicators : list str :=
  Eval vm_compute in
  List.map u ["Claude Code v"; "Welcome back"; "Tips for getting";
              "Run /init"; "Recent activity"; "No recent activity";
              "API Usage Billing"; "Organization"; "Auth conflict";
              "Trying to use"; "/model to try"]%string.

Definition is_cli_banner (line : str) : bool :=
  existsb (fun indicator => contains indicator line) banner_indicators.

(** The pattern [Sautéed for \d+[ms]] at the head of [s]. *)
Definition SAUTEED : str := Eval vm_compute in u "Sautéed for ".

Definition timing_here (s : str) : bool :=
  startswith s SAUTEED
  && let r := skipn (length SAUTEED) s in
     let d := span_len isdecimal r in
     match d, skipn d r with
     | S _, c :: _ => ((c =? 109) || (c =? 115))%N
     | _, _ => false
     end.

(** [re.match(r'.*Sautéed for \d+[ms]', line)]: the dot matches every
    character but the newline. *)
Fixpoint is_timing_line (line : str) : bool :=
  timing_here line
  || match line with
     | [] => false
     | c :: s' => negb (c =? NL)%N && is_timing_line s'
     end.

Definition has_claude_marker (line : str) : bool :=
  existsb (N.eqb MARKER) line.

(** *** The segmenter *)

Inductive speaker := user | claude.

Definition speaker_eqb (a b : speaker) : bool :=
  match a, b with
  | user, user | claude, claude => true
  | _, _ => false
  end.

Record turn := Turn { type : speaker; content : str }.

(** The variables of the loop of [parse_export]. *)
Record pstate := PState {
  turns : list turn;
  current_turn : option speaker;
  current_content : list str;
  skip_banner : bool
}.

Definition is_turn (t : option speaker) (s : speaker) : bool :=
  match t with
  | Some s' => speaker_eqb s' s
  | None => false
  end.

(** [if current_turn and current_content: turns.append(...)] *)
Definition save_turn (st : pstate) : list turn :=
  match current_turn st with
  | Some t =>
    if truthy (current_content st)
    then turns st ++ [Turn t (join [NL] (current_content st))]
    else turns st
  | None => turns st
  end.

(** [re.sub(r'^❯\s*', '', s)] without [re.MULTILINE]: only the head of
    the string can match. *)
Definition strip_prompt (s : str) : str :=
  match s with
  | c :: s' => if (c =? PROMPT)%N then lstrip s' else s
  | [] => []
  end.

(** One iteration of the loop, on one line. *)
Definition step (st : pstate) (line : str) : pstate :=
  let is_claude_start := has_claude_marker line in
  let cleaned := clean_line line in
  let past_banner :=
    if skip_banner st then
      if is_cli_banner cleaned || negb (truthy (strip cleaned)) then None
      else if is_user_prompt cleaned then Some false
      else None
    else Some (skip_banner st) in
  match past_banner with
  | None => st
  | Some skip =>
    let st := PState (turns st) (current_turn st) (current_content st) skip in
    if is_timing_line cleaned then st
    else if is_system_response cleaned then st
    else if is_user_prompt cleaned then
      let prompt_text := strip_prompt (strip cleaned) in
      if is_system_command prompt_text then
        PState (save_turn st) None [] skip
      else
        PState (save_turn st) (Some user)
               (if truthy prompt_text then [prompt_text] else []) skip
    else if is_claude_start && negb (is_turn (current_turn st) claude) then
      PState (save_turn st) (Some claude)
             (if truthy (strip cleaned) then [cleaned] else []) skip
    else if is_claude_start && is_turn (current_turn st) claude then
      PState (turns st) (current_turn st) (current_content st ++ [cleaned]) skip
    else if is_turn (current_turn st) user then
      PState (turns st) (current_turn st) (current_content st ++ [cleaned]) skip
    else if is_turn (current_turn st) claude then
      PState (turns st) (current_turn st) (current_content st ++ [cleaned]) skip
    else if truthy (strip cleaned) then
      PState (turns st) (Some claude) [cleaned] skip
    else st
  end.

Definition initial : pstate := PState [] None [] true.

(** The loop over the lines, then the last turn. *)
Definition parse_lines (lines : list str) : list turn :=
  save_turn (fold_left step lines initial).

Definition parse_export (content : str) : list turn :=
  let content := remove_line_numbers content in
  let lines := split NL content in
  parse_lines lines.

(** *** The normalizer *)

(** [re.match(r'^[-=]{3,}$', s)]: [$] also matches before a final
    newline. *)
Definition is_dash (c : N) : bool := ((c =? 45) || (c =? 61))%N.

Definition is_separator (s : str) : bool :=
  let n := span_len is_dash s in
  (3 <=? n)
  && match skipn n s with
     | [] => true
     | [c] => (c =? NL)%N
     | _ => false
     end.

Definition indent_of (line : str) : nat :=
  length line - length (lstrip line).

Definition min_indent_of (lines : list str) : nat :=
  match filter (fun line => truthy (strip line)) lines with
  | [] => 0
  | l :: ls => fold_left Nat.min (List.map indent_of ls) (indent_of l)
  end.

Fixpoint clean_loop (min_indent : nat) (lines : list str)
         (cleaned : list str) (prev_was_separator : bool) : list str :=
  match lines with
  | [] => cleaned
  | line :: rest =>
    let stripped := strip line in
    if is_separator stripped then
      clean_loop min_indent rest cleaned
        (if truthy cleaned && truthy (strip (last cleaned []))
         then true else prev_was_separator)
    else if prev_was_separator && negb (truthy stripped) then
      clean_loop min_indent rest cleaned false
    else
      let line :=
        if truthy line && (min_indent <=? length line)
        then skipn min_indent line else line in
      clean_loop min_indent rest (cleaned ++ [line]) false
  end.

Definition clean_content_lines (content : str) : list str :=
  let lines := split NL content in
  clean_loop (min_indent_of lines) lines [] false.

Definition clean_content (content : str) : str :=
  join [NL] (clean_content_lines content).

(** *** The renderer *)

(** What [datetime.now()] returns. *)
Record datetime := DateTime {
  year : N; month : N; day : N;
  hour : N; minute : N; second : N; microsecond : N
}.

Definition digit (n : N) : N := (48 + n mod 10)%N.

(** [strftime('%Y-%m-%d')], for the four-digit years of the clock. *)
Definition strftime_ymd (d : datetime) : str :=
  [digit (year d / 1000); digit (year d / 100); digit (year d / 10);
   digit (year d); 45%N;
   digit (month d / 10); digit (month d); 45%N;
   digit (day d / 10); digit (day d)].

Definition truncate_header (header : str) : str :=
  if 80 <? length header then firstn 77 header ++ u "..." else header.

(** The lines one turn adds to the document. *)
Definition render_turn (t : turn) : list str :=
  let content := strip (content t) in
  if negb (truthy content) then []
  else
    let content := clean_content content in
    match type t with
    | user =>
      let content_lines := split NL content in
      let header := strip (hd [] content_lines) in
      let header := truncate_header header in
      [u "# " ++ header]
      ++ (if 1 <? length content_lines then
            let remaining := strip (join [NL] (tl content_lines)) in
            if truthy remaining then [[]; remaining] else []
          else [])
      ++ [[]]
    | claude => [[]; u "## Claude"; []; content; []]
    end.

Definition front_matter (today title : str) : list str :=
  [u "---";
   u "title: " ++ [DQUOTE] ++ title ++ [DQUOTE];
   u "date: " ++ today;
   u "tags: [claude-code, conversation]";
   u "---";
   []].

(** [now] is the reading of the clock that [datetime.now()] returns. *)
Definition format_markdown (now : datetime) (turns : list turn)
           (title : str) : str :=
  let today := strftime_ymd now in
  let lines := front_matter today title ++ flat_map render_turn turns in
  let result := join [NL] lines in
  collapse_whitespace result.

(** [main], from the text it reads to the text it writes, for a title
    given on the command line: it parses, gives up ([return 1]) when
    there is no turn, and renders. *)
Definition convert (now : datetime) (content title : str) : option str :=
  let turns := parse_export content in
  if negb (truthy turns) then None
  else Some (format_markdown now turns title).

End Convert.

(** ** dangerous-command-blocker.py *)

Module Blocker.
Import Py.

(** *** The regular expressions of the two pattern lists

    The constructs the patterns use. Every literal and every class of the
    patterns is ASCII. *)
Inductive regex :=
| Eps                                (* the empty pattern, and [()] *)
| Chr (c : N)                        (* one literal character *)
| Dot                                (* [.] *)
| Space                              (* [\s] *)
| Cls (ranges : list (N * N))        (* [[...]], as ranges *)
| Seq (r1 r2 : regex)
| Alt (r1 r2 : regex)                (* [r1|r2] *)
| Star (r : regex)                   (* [r*] *)
| Eol                                (* [$] *)
| NegLook (r : regex).               (* [(?!r)] *)

Definition plus (r : regex) : regex := Seq r (Star r).
Definition opt (r : regex) : regex := Alt r Eps.
Definition seq (rs : list regex) : regex := fold_right Seq Eps rs.
Definition lit (s : string) : regex := seq (List.map Chr (u s)).
Definition set (s : string) : regex :=
  Cls (List.map (fun c => (c, c)) (u s)).
Definition range (a b : string) : regex :=
  Cls (combine (u a) (u b)).

(** What [re.IGNORECASE] compares for an ASCII pattern character: the
    lower case of the input character, with the two characters whose
    upper case is an ASCII letter (dotless i, long s) taken to that
    letter; the Kelvin sign and the dotted capital I have an ASCII lower
    case. *)
Definition sre_fold (c : N) : N :=
  if ((65 <=? c) && (c <=? 90))%N then (c + 32)%N
  else if (c =? 8490)%N then 107%N
  else if ((c =? 304) || (c =? 305))%N then 105%N
  else if (c =? 383)%N then 115%N
  else c.

Definition ascii_upper (c : N) : N :=
  if ((97 <=? c) && (c <=? 122))%N then (c - 32)%N else c.

Definition in_ranges (ranges : list (N * N)) (c : N) : bool :=
  existsb (fun r => (fst r <=? c) && (c <=? snd r))%N ranges.

Definition chr_matches (ignorecase : bool) (p c : N) : bool :=
  if ignorecase then (sre_fold c =? sre_fold p)%N else (c =? p)%N.

Definition cls_matches (ignorecase : bool) (ranges : list (N * N))
           (c : N) : bool :=
  if ignorecase
  then in_ranges ranges (sre_fold c)
       || in_ranges ranges (ascii_upper (sre_fold c))
  else in_ranges ranges c.

(** [$] matches at the end of the string and before a final newline. *)
Definition at_eol (s : str) : bool :=
  match s with
  | [] => true
  | [c] => (c =? NL)%N
  | _ => false
  end.

(** Whether [r] matches a prefix of [s] whose remainder [k] accepts: a
    backtracking matcher explores every such prefix, so a match is found
    exactly when one exists. A starred pattern is iterated only while it
    consumes input. *)
Fixpoint rmatch (ic : bool) (r : regex) (s : str) (k : str -> bool) : bool :=
  match r with
  | Eps => k s
  | Chr p =>
    match s with
    | c :: s' => chr_matches ic p c && k s'
    | [] => false
    end
  | Dot =>
    match s with
    | c :: s' => negb (c =? NL)%N && k s'
    | [] => false
    end
  | Space =>
    match s with
    | c :: s' => isspace c && k s'
    | [] => false
    end
  | Cls ranges =>
    match s with
    | c :: s' => cls_matches ic ranges c && k s'
    | [] => false
    end
  | Seq r1 r2 => rmatch ic r1 s (fun s' => rmatch ic r2 s' k)
  | Alt r1 r2 => rmatch ic r1 s k || rmatch ic r2 s k
  | Star r1 =>
    (fix loop (n : nat) (s : str) : bool :=
       k s
       || match n with
          | O => false
          | S n' =>
            rmatch ic r1 s (fun s' => (length s' <? length s) && loop n' s')
          end) (length s) s
  | Eol => at_eol s && k s
  | NegLook r1 => negb (rmatch ic r1 s (fun _ => true)) && k s
  end.

(** [re.search(pattern, s)] as a truth value: a match starts somewhere. *)
Fixpoint search (ic : bool) (r : regex) (s : str) : bool :=
  rmatch ic r s (fun _ => true)
  || match s with
     | [] => false
     | _ :: s' => search ic r s'
     end.

(** A pattern of the source, with its text. *)
Record pattern := Pattern { source : string; re : regex }.

Definition rm_flags : regex :=
  Star (seq [lit "-"; plus (set "rfRF"); plus Space]).
Definition ch_flags : regex :=
  Star (seq [lit "-"; plus (set "rR"); plus Space]).
Definition space_or_eol : regex := Alt Space Eol.

Definition BLOCKED_PATTERNS : list pattern :=
  [ Pattern "rm\s+(-[rfRF]+\s+)*[/~](\s|$)"
      (seq [lit "rm"; plus Space; rm_flags; set "/~"; space_or_eol]);
    Pattern "rm\s+(-[rfRF]+\s+)*/\*"
      (seq [lit "rm"; plus Space; rm_flags; lit "/*"]);
    Pattern "rm\s+(-[rfRF]+\s+)*\.\."
      (seq [lit "rm"; plus Space; rm_flags; lit ".."]);
    Pattern "rm\s+(-[rfRF]+\s+)*--no-preserve-root"
      (seq [lit "rm"; plus Space; rm_flags; lit "--no-preserve-root"]);
    Pattern ">\s*/dev/sd[a-z]"
      (seq [lit ">"; Star Space; lit "/dev/sd"; range "a" "z"]);
    Pattern "dd\s+.*of=/dev/sd[a-z]"
      (seq [lit "dd"; plus Space; Star Dot; lit "of=/dev/sd"; range "a" "z"]);
    Pattern "mkfs\."
      (lit "mkfs.");
    Pattern ":()\s*{\s*:\|\:&\s*}\s*;"
      (seq [lit ":"; Eps; Star Space; lit "{"; Star Space; lit ":|:&";
            Star Space; lit "}"; Star Space; lit ";"]);
    Pattern "chmod\s+(-[rR]+\s+)*[0-7]*00\s+/"
      (seq [lit "chmod"; plus Space; ch_flags; Star (range "0" "7");
            lit "00"; plus Space; lit "/"]);
    Pattern "chown\s+(-[rR]+\s+)*.*\s+/(\s|$)"
      (seq [lit "chown"; plus Space; ch_flags; Star Dot; plus Space;
            lit "/"; space_or_eol]);
    Pattern "mv\s+/\s"
      (seq [lit "mv"; plus Space; lit "/"; Space]);
    Pattern "curl.*\|\s*(ba)?sh"
      (seq [lit "curl"; Star Dot; lit "|"; Star Space; opt (lit "ba");
            lit "sh"]);
    Pattern "wget.*\|\s*(ba)?sh"
      (seq [lit "wget"; Star Dot; lit "|"; Star Space; opt (lit "ba");
            lit "sh"]);
    Pattern "curl.*-o\s*/"
      (seq [lit "curl"; Star Dot; lit "-o"; Star Space; lit "/"]);
    Pattern "cat.*/etc/shadow"
      (seq [lit "cat"; Star Dot; lit "/etc/shadow"]);
    Pattern "cat.*\.ssh/id_"
      (seq [lit "cat"; Star Dot; lit ".ssh/id_"]);
    Pattern "cat.*\.aws/credentials"
      (seq [lit "cat"; Star Dot; lit ".aws/credentials"]);
    Pattern "cat.*\.env(?:\s|$|/)"
      (seq [lit "cat"; Star Dot; lit ".env"; Alt Space (Alt Eol (lit "/"))]);
    Pattern ">\s*~/\..*_history"
      (seq [lit ">"; Star Space; lit "~/."; Star Dot; lit "_history"]);
    Pattern "rm.*\.bash_history"
      (seq [lit "rm"; Star Dot; lit ".bash_history"]);
    Pattern "rm.*\.zsh_history"
      (seq [lit "rm"; Star Dot; lit ".zsh_history"]);
    Pattern "nmap\s+-"
      (seq [lit "nmap"; plus Space; lit "-"]);
    Pattern "hydra\s+"
      (seq [lit "hydra"; plus Space]);
    Pattern "sqlmap\s+"
      (seq [lit "sqlmap"; plus Space]);
    Pattern "git\s+push.*--force.*main"
      (seq [lit "git"; plus Space; lit "push"; Star Dot; lit "--force";
            Star Dot; lit "main"]);
    Pattern "git\s+push.*--force.*master"
      (seq [lit "git"; plus Space; lit "push"; Star Dot; lit "--force";
            Star Dot; lit "master"]);
    Pattern "git\s+reset\s+--hard\s+HEAD~[0-9]+"
      (seq [lit "git"; plus Space; lit "reset"; plus Space; lit "--hard";
            plus Space; lit "HEAD~"; plus (range "0" "9")]);
    Pattern "git\s+clean\s+-[dDfFxX]+"
      (seq [lit "git"; plus Space; lit "clean"; plus Space; lit "-";
            plus (set "dDfFxX")]);
    Pattern "terraform\s+apply"
      (seq [lit "terraform"; plus Space; lit "apply"]);
    Pattern "terraform\s+destroy"
      (seq [lit "terraform"; plus Space; lit "destroy"]) ]%string.

Definition WARNING_PATTERNS : list pattern :=
  [ Pattern "rm\s+-[rfRF]+"
      (seq [lit "rm"; plus Space; lit "-"; plus (set "rfRF")]);
    Pattern "chmod\s+777"
      (seq [lit "chmod"; plus Space; lit "777"]);
    Pattern "sudo\s+"
      (seq [lit "sudo"; plus Space]);
    Pattern "su\s+-"
      (seq [lit "su"; plus Space; lit "-"]);
    Pattern ">\s*/etc/"
      (seq [lit ">"; Star Space; lit "/etc/"]);
    Pattern "pip\s+install\s+(?!-e\s)"
      (seq [lit "pip"; plus Space; lit "install"; plus Space;
            NegLook (seq [lit "-e"; Space])]);
    Pattern "npm\s+install\s+-g"
      (seq [lit "npm"; plus Space; lit "install"; plus Space; lit "-g"]);
    Pattern "brew\s+install"
      (seq [lit "brew"; plus Space; lit "install"]) ]%string.

(** [re.search(pattern, command, re.IGNORECASE)] *)
Definition matches (p : pattern) (command : str) : bool :=
  search true (re p) command.

(** *** The hook *)

(** A parsed JSON document. *)
#[local] Unset Elimination Schemes.
Inductive json :=
| JNull
| JBool (b : bool)
| JNum (z : Z)
| JStr (s : str)
| JArr (items : list json)
| JObj (fields : list (str * json)).
#[local] Set Elimination Schemes.

Definition str_eqb (a b : str) : bool :=
  (length a =? length b) && startswith a b.

(** [d.get(key)] on the dict of a JSON object: the last field of that
    name is the one the dict holds. *)
Fixpoint dict_get (fields : list (str * json)) (key : str) : option json :=
  match fields with
  | [] => None
  | (k, v) :: rest =>
    match dict_get rest key with
    | Some v' => Some v'
    | None => if str_eqb k key then Some v else None
    end
  end.

(** [extract_command]: [None] is Python's [None], also returned when a
    [.get] is attempted on something that is not a dict. *)
Definition extract_command (hook_input : json) : option json :=
  match hook_input with
  | JObj fields =>
    match dict_get fields (u "tool_input") with
    | Some (JObj inner) => dict_get inner (u "command")
    | Some _ => None
    | None => None     (* the default [{}] has no command *)
    end
  | _ => None
  end.

Definition truth (v : json) : bool :=
  match v with
  | JNull => false
  | JBool b => b
  | JNum z => negb (z =? 0)%Z
  | JStr s => truthy s
  | JArr items => truthy items
  | JObj fields => truthy fields
  end.

Definition check_dangerous (command : str) : bool * str :=
  match find (fun p => matches p command) BLOCKED_PATTERNS with
  | Some p =>
    (true, u "BLOCKED: Command matches dangerous pattern: " ++ u (source p))
  | None => (false, [])
  end.

Definition check_warning (command : str) : bool * str :=
  let warnings := filter (fun p => matches p command) WARNING_PATTERNS in
  if truthy warnings then
    (true, u "WARNING: Command matches suspicious patterns: "
           ++ join (u ", ") (List.map (fun p => u (source p)) warnings))
  else (false, []).

(** How a run of the hook ends: with an exit status and what it printed
    on the standard error, or with the [TypeError] that [re.search]
    raises on a command that is not a string. *)
Inductive outcome :=
| Exit (code : N) (stderr : list str)
| TypeError.

(** [main], on what [json.load] made of the standard input ([None] when
    it raised [JSONDecodeError]). *)
Definition main (stdin : option json) : outcome :=
  match stdin with
  | None => Exit 0 []
  | Some hook_input =>
    match extract_command hook_input with
    | None => Exit 0 []
    | Some command =>
      if negb (truth command) then Exit 0 []
      else
        match command with
        | JStr command =>
          let (is_blocked, block_reason) := check_dangerous command in
          if is_blocked then
            Exit 2 [block_reason;
                    [NL] ++ u "Command was: " ++ firstn 200 command ++ u "...";
                    [NL] ++ u "This command has been blocked for safety. Please use a safer alternative."]
          else
            let (should_warn, warn_reason) := check_warning command in
            Exit 0 []
        | _ => TypeError
        end
    end
  end.

End Blocker.

(** * Properties *)

Import Py Convert.

(** ** Predicates and inputs of the statements *)

(** The characters [clean_line] deletes or rewrites after the escape
    sequences are gone. *)
Definition is_artifact (c : N) : bool :=
  is_box_char c
  || (c =? MARKER)%N || (c =? FOOTER)%N || (c =? THINKING)%N
  || (c =? ELLIPSIS)%N.

Definition plain (s : str) : Prop := Forall (fun c => is_artifact c = false) s.

(** An escape sequence that is cut by another one survives the first
    pass and is removed by the second. *)
Definition nested_escape : str := [ESC; 91; ESC; 91; 48; 109; 109]%N.

Definition coloured_line : str :=
  Eval vm_compute in
  [ESC; 91; 51; 49; 109]%N ++ u "⏺ Done… │ " ++ [ESC; 91; 48; 109]%N.

(** The verdict of a run of the hook. *)
Definition blocks (o : Blocker.outcome) : bool :=
  match o with
  | Blocker.Exit 2 _ => true
  | _ => false
  end.

Definition allows (o : Blocker.outcome) : bool :=
  match o with
  | Blocker.Exit 0 _ => true
  | _ => false
  end.

(** The hook input that carries nothing but the command. *)
Definition bash_call (command : str) : Blocker.json :=
  Blocker.JObj
    [(u "tool_input", Blocker.JObj [(u "command", Blocker.JStr command)])].

(** A character outside ASCII that is neither whitespace nor one of the
    four characters [re.IGNORECASE] takes to an ASCII letter. *)
Definition foreign (c : N) : bool :=
  ((128 <=? c) && (Blocker.sre_fold c =? c))%N && negb (isspace c).

(** Two characters that differ at most in case. ASCII letters, and the
    four characters folded to them, are compared after folding. The case
    pairs outside ASCII are not tabulated: any two [foreign] characters
    are taken to be alike, which covers each of those pairs (e with acute
    accent and its capital, and so on). Two commands are case variants of
    each other when they are so character by character. *)
Definition same_letter (a b : N) : Prop :=
  Blocker.sre_fold a = Blocker.sre_fold b
  \/ (foreign a = true /\ foreign b = true).

Definition case_variant (c c' : str) : Prop := Forall2 same_letter c c'.

(** Whether every literal and every class of a pattern is ASCII. *)
Fixpoint ascii_only (r : Blocker.regex) : bool :=
  match r with
  | Blocker.Chr p => (p <? 128)%N
  | Blocker.Cls ranges => forallb (fun w => (snd w <? 128)%N) ranges
  | Blocker.Seq r1 r2 | Blocker.Alt r1 r2 => ascii_only r1 && ascii_only r2
  | Blocker.Star r1 | Blocker.NegLook r1 => ascii_only r1
  | Blocker.Eps | Blocker.Dot | Blocker.Space | Blocker.Eol => true
  end.

(** [str.upper] for one character of Latin-1: the letters, the micro
    sign, whose capital is the Greek one, the y with diaeresis, whose
    capital lies outside Latin-1, and the sharp s, which becomes two
    letters. *)
Definition upper_latin1 (c : N) : str :=
  if ((97 <=? c) && (c <=? 122))%N then [c - 32]%N
  else if (c =? 181)%N then [924]%N
  else if (c =? 223)%N then [83; 83]%N
  else if ((224 <=? c) && (c <=? 254) && negb (c =? 247))%N then [c - 32]%N
  else if (c =? 255)%N then [376]%N
  else [c].

(** [str.upper] on a string of Latin-1 characters; other strings are
    outside this table. *)
Definition upper (s : str) : option str :=
  if forallb (fun c => (c <? 256)%N) s
  then Some (flat_map upper_latin1 s)
  else None.

(** A command that reads a private key, spelt with a sharp s, and its
    upper case; a command with an accented word, in two cases. *)
Definition sharp_s_command : str := Eval vm_compute in u "cat ~/.ßh/id_rsa".

Definition sharp_s_command_upper : str :=
  Eval vm_compute in u "CAT ~/.SSH/ID_RSA".

Definition accented_command : str := Eval vm_compute in u "rm -rf / # café".

Definition accented_command_shouted : str :=
  Eval vm_compute in u "RM -RF / # CAFÉ".

(** Two readings of the clock, a day apart. *)
Definition clock_nov4 : datetime := DateTime 2026 11 4 9 30 0 0.
Definition clock_nov4_evening : datetime := DateTime 2026 11 4 21 5 17 250.
Definition clock_nov5 : datetime := DateTime 2026 11 5 9 30 0 0.

Definition hello_export : str :=
  Eval vm_compute in
  join [NL] [u "Claude Code v1.0"; u "Welcome back"; u "❯ hello";
             u "⏺ hi there"; []].

(** The header of a user turn: the first line of its normalized content,
    stripped. *)
Definition header_of (t : turn) : str :=
  strip (hd [] (split NL (clean_content (strip (content t))))).


(** A line: a string without a newline. *)
Definition no_newline (l : str) : Prop := Forall (fun c => c <> NL) l.

(** The state of the segmenter after the lines [pre]. *)
Definition state_after (pre : list str) : pstate :=
  fold_left step pre initial.

(** A line the loop neither discards as a timing line or a system
    response nor reads as a user prompt. *)
Definition plain_line (line : str) : Prop :=
  is_timing_line (clean_line line) = false
  /\ is_system_response (clean_line line) = false
  /\ is_user_prompt (clean_line line) = false.

(** Inputs of the segmenter. *)
Definition three_marker_lines : str :=
  Eval vm_compute in
  join [NL] [u "❯ q"; u "⏺"; u "⏺ a"; u "⏺ b"].

Definition bare_marker_lines : str :=
  Eval vm_compute in
  join [NL] [u "⏺"; u "⏺ a"; u "⏺ b"].

Definition empty_prompt_export : str :=
  Eval vm_compute in
  join [NL] [u "❯"; []].

Definition rename_echo_line : str :=
  Eval vm_compute in
  u "❯ /rename Session renamed to: x".

Definition rename_line : str :=
  Eval vm_compute in
  u "❯ /rename foo".

(** The uniform dedent of [clean_content], on one line. *)
Definition dedent (min_indent : nat) (line : str) : str :=
  if truthy line && (min_indent <=? length line)
  then skipn min_indent line else line.

Definition nonblank (line : str) : bool := truthy (strip line).

Definition separator_line (line : str) : bool := is_separator (strip line).

(** Whether a blank line directly follows a separator line. *)
Fixpoint blank_after_separator (lines : list str) : bool :=
  match lines with
  | [] => false
  | a :: rest =>
    match rest with
    | [] => false
    | b :: _ => (separator_line a && negb (nonblank b))
                || blank_after_separator rest
    end
  end.

Definition underlined_title : str :=
  Eval vm_compute in
  join [NL] [u "a"; u "---"; []; u "b"].

Definition indented_rule : str :=
  Eval vm_compute in
  join [NL] [u "  Title"; u "  ==="; u "    body"; []; u "  end"].

(** A line of pure banner noise: the loop skips it while it skips the
    banner. *)
Definition banner_noise (line : str) : bool :=
  is_cli_banner (clean_line line) || negb (truthy (strip (clean_line line))).

(** The text made of the lines [p], each ended by a newline. *)
Definition preamble (p : list str) : str :=
  flat_map (fun line => line ++ [NL]) p.

(** The characters of a line-number prefix. *)
Definition inert (c : N) : bool :=
  isspace c || isdecimal c || (c =? ARROW)%N.

Definition banner_lines : list str :=
  Eval vm_compute in
  [u "│ Claude Code v2.0 │"; u "  12→Welcome back"; []; u "   "].

(** ** Further predicates and inputs *)

(** A line with its line number: padding, digits, the arrow, the text. *)
Record numbered_line := Numbered { pad : str; num : str; text : str }.

Definition numbered_ok (ln : numbered_line) : Prop :=
  forallb isspace (pad ln) = true
  /\ forallb isdecimal (num ln) = true /\ num ln <> []
  /\ no_newline (text ln).

Definition with_number (ln : numbered_line) : str :=
  pad ln ++ num ln ++ [ARROW] ++ text ln.

Definition numbered_sample : list numbered_line :=
  Eval vm_compute in
  [Numbered (u "     ") (u "1") (u "❯ hello");
   Numbered (u "    ") (u "12") [];
   Numbered [] (u "103") (u "  7→ kept")].

Definition indented_text : str := Eval vm_compute in u "    return x  ".

(** A line the loop does not discard. *)
Definition accepted (c : str) : Prop :=
  is_timing_line c = false /\ is_system_response c = false.

Definition banner_only_export : str :=
  Eval vm_compute in
  join [NL] [u "Claude Code v1.0"; u "Welcome back"; u "⏺ stray output"; []].

Definition noisy_export : str :=
  Eval vm_compute in
  join [NL] [u "❯ build it"; u "⏺ │ Done… │"; u "✻ Sautéed for 12s";
             u "Session renamed to: x"; u "  ⎿ ok"].

(** One exchange of a transcript: the prompt line and the lines that
    continue it, the first line of the response and the lines that
    continue it. *)
Record exchange := Exchange {
  ask : str; ask_more : list str;
  answer : str; answer_more : list str
}.

Definition prompt_text (line : str) : str :=
  strip_prompt (strip (clean_line line)).

Definition exchange_ok (e : exchange) : Prop :=
  is_user_prompt (clean_line (ask e)) = true
  /\ accepted (clean_line (ask e))
  /\ is_system_command (prompt_text (ask e)) = false
  /\ truthy (prompt_text (ask e)) = true
  /\ Forall (fun l => plain_line l /\ has_claude_marker l = false)
            (ask_more e)
  /\ has_claude_marker (answer e) = true
  /\ plain_line (answer e)
  /\ truthy (strip (clean_line (answer e))) = true
  /\ Forall plain_line (answer_more e).

Definition exchange_lines (e : exchange) : list str :=
  ask e :: ask_more e ++ answer e :: answer_more e.

Definition exchange_turns (e : exchange) : list turn :=
  [Turn user
        (join [NL] (prompt_text (ask e) :: List.map clean_line (ask_more e)));
   Turn claude
        (join [NL] (List.map clean_line (answer e :: answer_more e)))].

Definition sample_talk : list exchange :=
  Eval vm_compute in
  [Exchange (u "❯ fix the bug") [u "  in parser.py"]
            (u "⏺ Looking…") [u "  ⎿ Read 3 lines"; []];
   Exchange (u "❯ Welcome back to it") []
            (u "⏺ Done") [u "⏺ All tests pass"]].

(** Whether no run of blank lines is longer than two, [run] blank lines
    having just been seen. *)
Fixpoint blank_runs_le2 (run : nat) (lines : list str) : bool :=
  match lines with
  | [] => true
  | l :: rest =>
    if nonblank l then blank_runs_le2 0 rest
    else (S run <=? 2) && blank_runs_le2 (S run) rest
  end.

Definition spaced_out : str :=
  Eval vm_compute in
  join [NL] [u "a"; []; u "   "; []; []; u "b"; []; []; []].

Definition indented_block : str :=
  Eval vm_compute in
  join [NL] [u "    if x:"; u "        return 1"; []; u "    done"].

(** The lines of the document [format_markdown] returns. *)
Definition document_lines (now : datetime) (turns : list turn)
           (title : str) : list str :=
  split NL (format_markdown now turns title).

Definition reply_turn : turn :=
  Eval vm_compute in
  Turn claude (join [NL] [u " Here it is:"; []; u "   x = 1"; u " ---"; []]).

Definition short_prompt : turn := Eval vm_compute in Turn user (u "hello").

(** Hook inputs. *)
Definition list_command : Blocker.json :=
  Eval vm_compute in
  Blocker.JObj
    [(u "tool_input",
      Blocker.JObj [(u "command", Blocker.JArr [Blocker.JStr (u "ls")])])].

Definition no_command : Blocker.json :=
  Eval vm_compute in
  Blocker.JObj [(u "tool_input", Blocker.JObj [(u "file_path", Blocker.JStr (u "a.txt"))])].

(** The prefix of every reason [check_dangerous] gives. *)
Definition blocked_prefix : str :=
  Eval vm_compute in u "BLOCKED: Command matches dangerous pattern: ".

(** A command that two blocked patterns match, the third of the list and
    a later one. *)
Definition two_offences : str :=
  Eval vm_compute in u "rm -rf ../old && cat .env".

(** Two characters that are the same, or two whitespace characters other
    than the newline; two commands that are so character by character. *)
Definition blank_alike (a b : N) : Prop :=
  a = b
  \/ (isspace a = true /\ isspace b = true /\ a <> NL /\ b <> NL).

Definition spacing_variant (c c' : str) : Prop := Forall2 blank_alike c c'.

(** The whitespace characters. *)
Definition whitespace : list N :=
  [9; 10; 11; 12; 13; 28; 29; 30; 31; 32; 133; 160; 5760; 8192; 8193; 8194;
   8195; 8196; 8197; 8198; 8199; 8200; 8201; 8202; 8232; 8233; 8239; 8287;
   12288]%N.

(** Whether no literal and no class of a pattern can match a whitespace
    character: whitespace is matched by [\s] and by the dot only. *)
Fixpoint spaceless (r : Blocker.regex) : bool :=
  match r with
  | Blocker.Chr p => negb (isspace (Blocker.sre_fold p))
  | Blocker.Cls ranges =>
    forallb (fun w => negb (Blocker.in_ranges ranges w)) whitespace
  | Blocker.Seq r1 r2 | Blocker.Alt r1 r2 => spaceless r1 && spaceless r2
  | Blocker.Star r1 | Blocker.NegLook r1 => spaceless r1
  | Blocker.Eps | Blocker.Dot | Blocker.Space | Blocker.Eol => true
  end.

(** [rm -rf /] written with spaces, and with a tab and a no-break space
    in their place. *)
Definition spaced_rm : str := Eval vm_compute in u "rm -rf /".

Definition tabbed_rm : str := [114; 109; 9; 45; 114; 102; 160; 47]%N.

Definition force_push : str :=
  Eval vm_compute in u "git push --force origin main".

Definition force_push_shouted : str :=
  Eval vm_compute in u "Git Push --FORCE origin Main".

(** ** convert.py: the export finder *)

Module Finder.

(** [\d{4}-\d{2}-\d{2}] matched at the start of [s]. *)
Definition date_here (s : str) : bool :=
  match s with
  | y1 :: y2 :: y3 :: y4 :: d1 :: m1 :: m2 :: d2 :: a1 :: a2 :: _ =>
    forallb isdecimal [y1; y2; y3; y4] && (d1 =? 45)%N
    && forallb isdecimal [m1; m2] && (d2 =? 45)%N
    && forallb isdecimal [a1; a2]
  | _ => false
  end.

(** [re.search(r'\d{4}-\d{2}-\d{2}', name)] as a truth value. *)
Fixpoint has_date (name : str) : bool :=
  date_here name
  || match name with
     | [] => false
     | _ :: rest => has_date rest
     end.

Section Names.

(** A [pathlib.Path]; the [*.txt] entries that [list(directory.glob(...))]
    gives for a directory; the last component of a path, [f.name]. *)
Variable path : Type.
Variable glob_txt : path -> list path.
Variable name : path -> str.

(** [str.lower]; the finder does not depend on what it does to a name. *)
Variable lower : str -> str.

(** The test of the loop body. *)
Definition is_export_name (f : path) : bool :=
  let name := lower (name f) in
  has_date name
  || contains (u "export") name
  || contains (u "command") name
  || contains (u "message") name.

Definition find_export_files (directory : path) : list path :=
  let txt_files := glob_txt directory in
  let export_files := filter is_export_name txt_files in
  if truthy export_files then export_files else txt_files.

End Names.

End Finder.
(** ** Strings *)

Section StringFacts.

Lemma rstrip_nil_iff (s : str) : rstrip s = [] <-> forallb isspace s = true.
Proof.
  induction s as [|c s IH]; simpl.
  - tauto.
  - destruct (rstrip s) eqn:E.
    + destruct (isspace c); simpl.
      * split; intros _; [apply IH|]; reflexivity.
      * split; discriminate.
    + split; [discriminate|].
      intros H. apply andb_prop in H. destruct H as [_ H].
      apply IH in H. discriminate.
Qed.

Lemma rstrip_cons (c : N) (s : str) :
  rstrip (c :: s) = if forallb isspace (c :: s) then [] else c :: rstrip s.
Proof.
  simpl. destruct (rstrip s) eqn:E.
  - assert (H : forallb isspace s = true) by (apply rstrip_nil_iff; exact E).
    rewrite H, andb_true_r. destruct (isspace c); reflexivity.
  - assert (H : forallb isspace s = false).
    { destruct (forallb isspace s) eqn:F; [|reflexivity].
      apply rstrip_nil_iff in F. congruence. }
    rewrite H, andb_false_r. reflexivity.
Qed.

Lemma rstrip_split (s : str) :
  exists t, s = rstrip s ++ t /\ forallb isspace t = true.
Proof.
  induction s as [|c s [t [E F]]].
  - exists []. split; reflexivity.
  - rewrite rstrip_cons. destruct (forallb isspace (c :: s)) eqn:A.
    + exists (c :: s). split; [reflexivity | exact A].
    + exists t. split; [simpl; f_equal; exact E | exact F].
Qed.

Lemma rstrip_Forall (P : N -> Prop) (s : str) :
  Forall P s -> Forall P (rstrip s).
Proof.
  intros H. destruct (rstrip_split s) as [t [E _]].
  rewrite E in H. apply Forall_app in H. tauto.
Qed.

Lemma forallb_rstrip (s : str) :
  forallb isspace (rstrip s) = forallb isspace s.
Proof.
  induction s as [|c s IH]; [reflexivity|].
  rewrite rstrip_cons. destruct (forallb isspace (c :: s)) eqn:A.
  - reflexivity.
  - simpl in *. rewrite IH. exact A.
Qed.

Lemma rstrip_idempotent (s : str) : rstrip (rstrip s) = rstrip s.
Proof.
  induction s as [|c s IH]; [reflexivity|].
  rewrite rstrip_cons. destruct (forallb isspace (c :: s)) eqn:A.
  - reflexivity.
  - rewrite rstrip_cons. simpl in *. rewrite forallb_rstrip, A, IH.
    reflexivity.
Qed.

Lemma replace_absent (old : N) (new s : str) :
  Forall (fun c => c <> old) s -> replace old new s = s.
Proof.
  unfold replace. induction 1 as [|c s H _ IH]; simpl.
  - reflexivity.
  - apply N.eqb_neq in H. rewrite H. simpl. f_equal. exact IH.
Qed.

Lemma replace_Forall (P : N -> Prop) (old : N) (new s : str) :
  Forall P new -> Forall P s -> Forall P (replace old new s).
Proof.
  intros Hn. unfold replace. induction 1 as [|c s H _ IH]; simpl.
  - constructor.
  - apply Forall_app. split; [|exact IH].
    destruct (c =? old)%N; [exact Hn | constructor; [exact H | constructor]].
Qed.

Lemma replace_removes (old : N) (new s : str) :
  Forall (fun c => c <> old) new ->
  Forall (fun c => c <> old) (replace old new s).
Proof.
  intros Hn. unfold replace. induction s as [|c s IH]; simpl.
  - constructor.
  - apply Forall_app. split; [|exact IH].
    destruct (c =? old)%N eqn:E; [exact Hn|].
    constructor; [apply N.eqb_neq; exact E | constructor].
Qed.

End StringFacts.

(** ** The line cleaner *)

Section Cleaner.

Lemma plain_dots : plain (u "...").
Proof. repeat constructor. Qed.

Lemma plain_not (s : str) (g : N) :
  is_artifact g = true -> plain s -> Forall (fun c => c <> g) s.
Proof.
  intros Hg. apply Forall_impl. intros c Hc E. subst c. congruence.
Qed.

Lemma plain_fixed (s : str) :
  plain s ->
  replace ELLIPSIS (u "...")
    (replace THINKING [] (replace FOOTER [] (replace MARKER []
      (remove_box_chars s)))) = s.
Proof.
  intros H.
  assert (B : remove_box_chars s = s).
  { unfold remove_box_chars. induction H as [|c s Hc _ IH]; simpl.
    - reflexivity.
    - unfold is_artifact in Hc. destruct (is_box_char c); [discriminate|].
      simpl. f_equal. exact IH. }
  rewrite B.
  rewrite (@replace_absent MARKER) by (apply plain_not; [reflexivity|exact H]).
  rewrite (@replace_absent FOOTER) by (apply plain_not; [reflexivity|exact H]).
  rewrite (@replace_absent THINKING) by (apply plain_not; [reflexivity|exact H]).
  apply replace_absent. apply plain_not; [reflexivity|exact H].
Qed.

Lemma remove_box_chars_spec (s : str) :
  Forall (fun c => is_box_char c = false) (remove_box_chars s).
Proof.
  unfold remove_box_chars. apply Forall_forall. intros c H.
  apply filter_In in H. destruct H as [_ H].
  apply negb_true_iff. exact H.
Qed.

Lemma no_artifact_intro (c : N) :
  is_box_char c = false -> c <> MARKER -> c <> FOOTER -> c <> THINKING ->
  c <> ELLIPSIS -> is_artifact c = false.
Proof.
  intros B M F T E. unfold is_artifact. rewrite B.
  apply N.eqb_neq in M, F, T, E. rewrite M, F, T, E. reflexivity.
Qed.

(** What [clean_line] returns contains none of the artifacts. *)
Lemma clean_line_plain (x : str) : plain (clean_line x).
Proof.
  unfold clean_line, plain. apply rstrip_Forall.
  set (b := remove_box_chars (remove_ansi_codes x)).
  set (r1 := replace MARKER [] b).
  set (r2 := replace FOOTER [] r1).
  set (r3 := replace THINKING [] r2).
  set (r4 := replace ELLIPSIS (u "...") r3).
  assert (Hb : Forall (fun c => is_box_char c = false) r4).
  { repeat apply replace_Forall; try constructor; try reflexivity;
      try (repeat constructor; fail).
    apply remove_box_chars_spec. }
  assert (H1 : Forall (fun c => c <> MARKER) r4).
  { do 3 (apply replace_Forall; [repeat constructor; discriminate|]).
    apply replace_removes. constructor. }
  assert (H2 : Forall (fun c => c <> FOOTER) r4).
  { do 2 (apply replace_Forall; [repeat constructor; discriminate|]).
    apply replace_removes. constructor. }
  assert (H3 : Forall (fun c => c <> THINKING) r4).
  { apply replace_Forall; [repeat constructor; discriminate|].
    apply replace_removes. constructor. }
  assert (H4 : Forall (fun c => c <> ELLIPSIS) r4).
  { apply replace_removes. repeat constructor; discriminate. }
  rewrite Forall_forall in *. intros c Hc.
  apply no_artifact_intro; auto.
Qed.

End Cleaner.

Section CleanerIdempotence.

Lemma rstrip_clean_line (x : str) : rstrip (clean_line x) = clean_line x.
Proof. unfold clean_line. apply rstrip_idempotent. Qed.

Lemma remove_ansi_codes_no_escape (s : str) :
  Forall (fun c => c <> ESC) s -> remove_ansi_codes s = s.
Proof.
  unfold remove_ansi_codes. generalize true.
  induction s as [|c s IH]; intros bol H; [reflexivity|].
  inversion H as [|? ? Hc Hs]; subst. cbn [sub_delete].
  assert (E : ansi_match bol (c :: s) = None).
  { unfold ansi_match. destruct s as [|b r]; [reflexivity|].
    apply N.eqb_neq in Hc. rewrite Hc. reflexivity. }
  rewrite E. f_equal. apply IH. exact Hs.
Qed.

Lemma clean_line_stable (x : str) :
  remove_ansi_codes (clean_line x) = clean_line x ->
  clean_line (clean_line x) = clean_line x.
Proof.
  intros H. unfold clean_line at 1. rewrite H.
  rewrite (plain_fixed (clean_line_plain x)).
  apply rstrip_clean_line.
Qed.

(** C5, as stated, fails: cleaning the cleaned line changes it again. *)
Lemma clean_line_not_idempotent :
  clean_line nested_escape = [ESC; 91; 109]%N
  /\ clean_line (clean_line nested_escape) = []
  /\ clean_line (clean_line nested_escape) <> clean_line nested_escape.
Proof.
  split; [reflexivity|]. split; [reflexivity|]. discriminate.
Qed.

(** C5, amended: [clean_line] is idempotent on every input whose cleaned
    form holds no escape sequence any more, that is, which
    [remove_ansi_codes] leaves as it is. *)
Theorem clean_line_idempotent_without_ansi (x : str) :
  remove_ansi_codes (clean_line x) = clean_line x ->
  clean_line (clean_line x) = clean_line x.
Proof. exact (@clean_line_stable x). Qed.

Lemma clean_line_idempotent_without_ansi_witness :
  remove_ansi_codes (clean_line coloured_line) = clean_line coloured_line
  /\ clean_line (clean_line coloured_line) = clean_line coloured_line.
Proof.
  split.
  - reflexivity.
  - apply (clean_line_idempotent_without_ansi coloured_line). reflexivity.
Defined.

(** In particular on every input without the escape character. *)
Corollary clean_line_idempotent_no_escape (x : str) :
  Forall (fun c => c <> ESC) x ->
  clean_line (clean_line x) = clean_line x.
Proof.
  intros H. apply clean_line_stable.
  apply remove_ansi_codes_no_escape.
  unfold clean_line. apply rstrip_Forall.
  rewrite (remove_ansi_codes_no_escape H).
  repeat apply replace_Forall; try (repeat constructor; discriminate).
  unfold remove_box_chars. apply Forall_forall. intros c Hc.
  apply filter_In in Hc. rewrite Forall_forall in H. apply H. tauto.
Qed.

End CleanerIdempotence.

(** ** The command blocker *)

Section Gate.
Import Blocker.

Lemma no_pattern_matches_empty :
  forallb (fun p => negb (matches p [])) BLOCKED_PATTERNS = true.
Proof. vm_compute. reflexivity. Qed.

Lemma check_dangerous_spec (c : str) :
  fst (check_dangerous c) = true
  <-> exists p, In p BLOCKED_PATTERNS /\ matches p c = true.
Proof.
  unfold check_dangerous.
  destruct (find (fun p => matches p c) BLOCKED_PATTERNS) as [p|] eqn:F.
  - apply find_some in F. simpl. split; [|reflexivity].
    intros _. exists p. exact F.
  - simpl. split; [discriminate|]. intros [p [Hin Hm]].
    apply (find_none _ _ F) in Hin. congruence.
Qed.

Lemma main_on_command (h : json) (c : str) :
  extract_command h = Some (JStr c) ->
  main (Some h) =
  if truthy c && fst (check_dangerous c)
  then Exit 2 [snd (check_dangerous c);
               [NL] ++ u "Command was: " ++ firstn 200 c ++ u "...";
               [NL] ++ u "This command has been blocked for safety. Please use a safer alternative."]
  else Exit 0 [].
Proof.
  intros E. unfold main. rewrite E. cbn [truth].
  destruct (truthy c); cbn [negb andb]; [|reflexivity].
  destruct (check_dangerous c) as [b reason]. cbn [fst snd].
  destruct b; [reflexivity|].
  destruct (check_warning c). reflexivity.
Qed.

Lemma extract_bash_call (c : str) :
  extract_command (bash_call c) = Some (JStr c).
Proof. reflexivity. Qed.

(** C9: for a command string, the hook blocks exactly when the command
    matches one of the blocked patterns; a command that matches none of
    them (whatever warning patterns it matches) is allowed; and the
    outcome is that of the command alone. *)
Theorem gate_blocks_iff_blocked_pattern (h : json) (c : str) :
  extract_command h = Some (JStr c) ->
  (blocks (main (Some h)) = true
   <-> exists p, In p BLOCKED_PATTERNS /\ matches p c = true)
  /\ ((forall p, In p BLOCKED_PATTERNS -> matches p c = false) ->
      allows (main (Some h)) = true)
  /\ main (Some h) = main (Some (bash_call c)).
Proof.
  intros E. rewrite (main_on_command h E).
  rewrite (main_on_command (bash_call c) (extract_bash_call c)).
  split; [|split; [|reflexivity]].
  - rewrite <- check_dangerous_spec.
    destruct c as [|a c].
    + cbn [truthy andb blocks]. split; [discriminate|].
      intros H. apply check_dangerous_spec in H. destruct H as [p [Hin Hm]].
      pose proof no_pattern_matches_empty as N0.
      rewrite forallb_forall in N0. apply N0 in Hin.
      rewrite Hm in Hin. discriminate.
    + cbn [truthy andb]. destruct (fst (check_dangerous (a :: c)));
        cbn [blocks]; split; congruence.
  - intros H.
    assert (F : fst (check_dangerous c) = false).
    { destruct (fst (check_dangerous c)) eqn:D; [|reflexivity].
      apply check_dangerous_spec in D. destruct D as [p [Hin Hm]].
      rewrite (H p Hin) in Hm. discriminate. }
    rewrite F, andb_false_r. reflexivity.
Qed.

Lemma gate_blocks_iff_blocked_pattern_witness :
  extract_command (bash_call (u "sudo rm -rf /")) = Some (JStr (u "sudo rm -rf /"))
  /\ blocks (main (Some (bash_call (u "sudo rm -rf /")))) = true.
Proof.
  split; [reflexivity|].
  apply (gate_blocks_iff_blocked_pattern (bash_call (u "sudo rm -rf /"))
           (c := u "sudo rm -rf /") eq_refl).
  exists (nth 0 BLOCKED_PATTERNS (Pattern "" Eps)).
  split; [left; reflexivity | vm_compute; reflexivity].
Defined.

End Gate.

(** ** Case-insensitive matching *)

Section IgnoreCase.
Import Blocker.

Lemma isspace_spec (c : N) :
  isspace c = true <->
  (9 <= c <= 13 \/ 28 <= c <= 32 \/ c = 133 \/ c = 160 \/ c = 5760
   \/ 8192 <= c <= 8202 \/ c = 8232 \/ c = 8233 \/ c = 8239 \/ c = 8287
   \/ c = 12288)%N.
Proof.
  unfold isspace.
  repeat rewrite orb_true_iff. repeat rewrite andb_true_iff.
  repeat rewrite N.leb_le. repeat rewrite N.eqb_eq. tauto.
Qed.

Lemma sre_fold_cases (c : N) :
  sre_fold c = c
  \/ ((97 <= sre_fold c <= 122)%N
      /\ ((65 <= c <= 90)%N \/ c = 8490%N \/ c = 304%N \/ c = 305%N
          \/ c = 383%N)).
Proof.
  unfold sre_fold.
  destruct ((65 <=? c) && (c <=? 90))%N eqn:U.
  - apply andb_prop in U. destruct U as [U1 U2].
    apply N.leb_le in U1, U2. right. lia.
  - destruct (c =? 8490)%N eqn:K; [apply N.eqb_eq in K; right; lia|].
    destruct ((c =? 304) || (c =? 305))%N eqn:I.
    + apply orb_prop in I. destruct I as [I|I]; apply N.eqb_eq in I;
        right; lia.
    + destruct (c =? 383)%N eqn:S; [apply N.eqb_eq in S; right; lia|].
      left. reflexivity.
Qed.

Lemma isspace_fold (c : N) : isspace (sre_fold c) = isspace c.
Proof.
  destruct (sre_fold_cases c) as [E|[L H]]; [rewrite E; reflexivity|].
  apply eq_true_iff_eq. rewrite !isspace_spec. lia.
Qed.

Lemma newline_fold (c : N) : (sre_fold c =? NL)%N = (c =? NL)%N.
Proof.
  destruct (sre_fold_cases c) as [E|[L H]]; [rewrite E; reflexivity|].
  unfold NL. apply eq_true_iff_eq. rewrite !N.eqb_eq. lia.
Qed.

Lemma foreign_spec (c : N) :
  foreign c = true -> (128 <= c)%N /\ sre_fold c = c /\ isspace c = false.
Proof.
  unfold foreign. intros H.
  apply andb_prop in H. destruct H as [H S].
  apply andb_prop in H. destruct H as [L F].
  apply N.leb_le in L. apply N.eqb_eq in F. apply negb_true_iff in S.
  auto.
Qed.

Lemma sre_fold_ascii (p : N) : (p < 128)%N -> (sre_fold p < 128)%N.
Proof.
  intros H. destruct (sre_fold_cases p) as [E|[L _]]; [rewrite E; exact H|].
  lia.
Qed.

Lemma same_letter_space (a b : N) :
  same_letter a b -> isspace a = isspace b.
Proof.
  intros [H|[A B]].
  - rewrite <- (isspace_fold a), <- (isspace_fold b), H. reflexivity.
  - apply foreign_spec in A, B.
    destruct A as [_ [_ A]], B as [_ [_ B]]. congruence.
Qed.

Lemma same_letter_newline (a b : N) :
  same_letter a b -> (a =? NL)%N = (b =? NL)%N.
Proof.
  intros [H|[A B]].
  - rewrite <- (newline_fold a), <- (newline_fold b), H. reflexivity.
  - apply foreign_spec in A, B.
    destruct A as [A _], B as [B _]. unfold NL.
    apply eq_true_iff_eq. rewrite !N.eqb_eq. lia.
Qed.

(** An ASCII literal does not match a foreign character. *)
Lemma chr_foreign (p a : N) :
  (p <? 128)%N = true -> foreign a = true -> chr_matches true p a = false.
Proof.
  intros P A. apply N.ltb_lt in P. apply sre_fold_ascii in P.
  apply foreign_spec in A. destruct A as [L [F _]].
  unfold chr_matches. rewrite F. apply N.eqb_neq. lia.
Qed.

Lemma in_ranges_above (ranges : list (N * N)) (c : N) :
  forallb (fun w => (snd w <? 128)%N) ranges = true -> (128 <= c)%N ->
  in_ranges ranges c = false.
Proof.
  intros R L. unfold in_ranges.
  induction ranges as [|w ranges IH]; [reflexivity|].
  cbn [forallb] in R. apply andb_prop in R. destruct R as [W R].
  cbn [existsb]. rewrite (IH R), orb_false_r.
  apply N.ltb_lt in W. apply andb_false_iff. right.
  apply N.leb_gt. lia.
Qed.

(** Nor does an ASCII class. *)
Lemma cls_foreign (ranges : list (N * N)) (a : N) :
  forallb (fun w => (snd w <? 128)%N) ranges = true -> foreign a = true ->
  cls_matches true ranges a = false.
Proof.
  intros R A. apply foreign_spec in A. destruct A as [L [F _]].
  unfold cls_matches. rewrite F.
  assert (U : ascii_upper a = a).
  { unfold ascii_upper.
    destruct ((97 <=? a) && (a <=? 122))%N eqn:E; [|reflexivity].
    apply andb_prop in E. destruct E as [_ E]. apply N.leb_le in E. lia. }
  rewrite U, (in_ranges_above _ R L). reflexivity.
Qed.

Lemma at_eol_case (s s' : str) : case_variant s s' -> at_eol s = at_eol s'.
Proof.
  intros H. destruct H as [|a b s s' Hab Hs]; [reflexivity|].
  destruct Hs; simpl; try reflexivity.
  apply same_letter_newline; exact Hab.
Qed.

(** A pattern whose literals and classes are ASCII cannot tell case
    variants apart. *)
Lemma rmatch_case (r : regex) :
  ascii_only r = true ->
  forall (s s' : str) (k k' : str -> bool),
    case_variant s s' ->
    (forall t t', case_variant t t' -> k t = k' t') ->
    rmatch true r s k = rmatch true r s' k'.
Proof.
  induction r as [|p| | |ranges|r1 IH1 r2 IH2|r1 IH1 r2 IH2|r1 IH1| |r1 IH1];
    intros W s s' k k' Hs Hk; cbn [rmatch]; cbn [ascii_only] in W.
  - apply Hk; exact Hs.
  - destruct Hs as [|a b s s' Hab Hs]; [reflexivity|].
    destruct Hab as [E|[A B]].
    + unfold chr_matches. rewrite E. f_equal. apply Hk; exact Hs.
    + rewrite (chr_foreign p a W A), (chr_foreign p b W B). reflexivity.
  - destruct Hs as [|a b s s' Hab Hs]; [reflexivity|].
    rewrite (same_letter_newline Hab). f_equal. apply Hk; exact Hs.
  - destruct Hs as [|a b s s' Hab Hs]; [reflexivity|].
    rewrite (same_letter_space Hab). f_equal. apply Hk; exact Hs.
  - destruct Hs as [|a b s s' Hab Hs]; [reflexivity|].
    destruct Hab as [E|[A B]].
    + unfold cls_matches. rewrite E. f_equal. apply Hk; exact Hs.
    + rewrite (cls_foreign ranges a W A), (cls_foreign ranges b W B).
      reflexivity.
  - apply andb_prop in W. destruct W as [W1 W2].
    apply IH1; [exact W1 | exact Hs|].
    intros t t' Ht. apply IH2; [exact W2 | exact Ht | exact Hk].
  - apply andb_prop in W. destruct W as [W1 W2].
    f_equal; [apply IH1 | apply IH2]; assumption.
  - rewrite (Forall2_length Hs). generalize (length s') as n.
    intros n. revert s s' Hs.
    induction n as [|n IHn]; intros s s' Hs.
    + rewrite (Hk s s' Hs). reflexivity.
    + rewrite (Hk s s' Hs). f_equal.
      apply IH1; [exact W | exact Hs|]. intros t t' Ht.
      rewrite (Forall2_length Ht), (Forall2_length Hs). f_equal.
      apply IHn. exact Ht.
  - rewrite (at_eol_case Hs). f_equal. apply Hk; exact Hs.
  - f_equal; [|apply Hk; exact Hs]. f_equal.
    apply IH1; [exact W | exact Hs|]. reflexivity.
Qed.

Lemma search_case (r : regex) (s s' : str) :
  ascii_only r = true ->
  case_variant s s' -> search true r s = search true r s'.
Proof.
  intros W. induction 1 as [|a b s s' Hab Hs IH].
  - reflexivity.
  - cbn [search]. f_equal; [|exact IH].
    apply rmatch_case; [exact W | constructor; assumption | reflexivity].
Qed.

Lemma patterns_ascii :
  forallb (fun p => ascii_only (re p)) (BLOCKED_PATTERNS ++ WARNING_PATTERNS)
  = true.
Proof. vm_compute. reflexivity. Qed.

Lemma matches_case (p : pattern) (c c' : str) :
  In p (BLOCKED_PATTERNS ++ WARNING_PATTERNS) ->
  case_variant c c' -> matches p c = matches p c'.
Proof.
  intros Hp. apply search_case.
  pose proof patterns_ascii as F. rewrite forallb_forall in F.
  apply F. exact Hp.
Qed.

Lemma find_ext_in {A} (f g : A -> bool) (l : list A) :
  (forall x, In x l -> f x = g x) -> find f l = find g l.
Proof.
  intros H. induction l as [|x l IH]; simpl; [reflexivity|].
  rewrite (H x (or_introl eq_refl)), IH; [reflexivity|].
  intros y Hy. apply H. right. exact Hy.
Qed.

(** C10, as stated, fails for the upper case [str.upper] gives: the
    capital of a sharp s is two letters, and a command that is allowed
    has an upper-case variant that is blocked. *)
Lemma upper_case_changes_verdict :
  upper sharp_s_command = Some sharp_s_command_upper
  /\ fst (check_dangerous sharp_s_command) = false
  /\ fst (check_dangerous sharp_s_command_upper) = true.
Proof.
  split; [vm_compute; reflexivity|].
  split; reflexivity.
Qed.

(** C10, amended: the two checks return the same verdict on two commands
    of the same length that agree character by character up to the case
    of their letters, ASCII or not. *)
Theorem checks_ignore_case (c c' : str) :
  case_variant c c' ->
  fst (check_dangerous c) = fst (check_dangerous c')
  /\ fst (check_warning c) = fst (check_warning c').
Proof.
  intros H. split.
  - unfold check_dangerous.
    rewrite (find_ext_in (fun p => matches p c) (fun p => matches p c')
               BLOCKED_PATTERNS).
    + destruct (find _ _); reflexivity.
    + intros p Hp. apply matches_case; [|exact H].
      apply in_or_app. left. exact Hp.
  - unfold check_warning.
    rewrite (filter_ext_in (fun p => matches p c) (fun p => matches p c')
               WARNING_PATTERNS).
    + destruct (filter _ _); reflexivity.
    + intros p Hp. apply matches_case; [|exact H].
      apply in_or_app. right. exact Hp.
Qed.

Lemma checks_ignore_case_witness :
  case_variant accented_command accented_command_shouted
  /\ fst (check_dangerous accented_command_shouted) = true
  /\ fst (check_warning accented_command_shouted) = true.
Proof.
  assert (V : case_variant accented_command accented_command_shouted).
  { unfold accented_command, accented_command_shouted.
    repeat (apply Forall2_cons;
            [first [left; reflexivity | right; split; reflexivity]|]).
    apply Forall2_nil. }
  split; [exact V|].
  destruct (checks_ignore_case V) as [D W].
  split; [rewrite <- D | rewrite <- W]; reflexivity.
Defined.

End IgnoreCase.

(** ** Lines *)

Section Lines.

Lemma split_not_nil (s : str) : split NL s <> [].
Proof.
  destruct s as [|c s]; simpl; [discriminate|].
  destruct (c =? NL)%N; [discriminate|].
  destruct (split NL s); discriminate.
Qed.

Lemma split_cons_newline (s : str) : split NL (NL :: s) = [] :: split NL s.
Proof. reflexivity. Qed.

Lemma split_cons_other (c : N) (s : str) :
  c <> NL ->
  split NL (c :: s) = (c :: hd [] (split NL s)) :: tl (split NL s).
Proof.
  intros H. apply N.eqb_neq in H. cbn [split]. rewrite H.
  destruct (split NL s); reflexivity.
Qed.

Lemma split_app_newline (a b : str) :
  split NL (a ++ NL :: b) = split NL a ++ split NL b.
Proof.
  induction a as [|c a IH].
  - reflexivity.
  - destruct (N.eq_dec c NL) as [E|E].
    + subst c. rewrite <- app_comm_cons.
      rewrite !split_cons_newline, IH. reflexivity.
    + rewrite <- app_comm_cons.
      rewrite (split_cons_other (a ++ NL :: b) E), (split_cons_other a E), IH.
      pose proof (split_not_nil a) as Ha.
      destruct (split NL a); [contradiction|]. reflexivity.
Qed.

Lemma split_no_newline (l : str) : no_newline l -> split NL l = [l].
Proof.
  induction 1 as [|c l Hc _ IH]; [reflexivity|].
  rewrite (split_cons_other _ Hc), IH. reflexivity.
Qed.

Lemma split_lines (s : str) : Forall no_newline (split NL s).
Proof.
  induction s as [|c s IH].
  - repeat constructor.
  - destruct (N.eq_dec c NL) as [E|E].
    + subst c. rewrite split_cons_newline. constructor; [constructor|exact IH].
    + rewrite (split_cons_other _ E).
      pose proof (split_not_nil s) as Hs.
      destruct (split NL s) as [|h t]; [contradiction|].
      inversion IH; subst. constructor; [|assumption].
      constructor; assumption.
Qed.

Lemma join_cons (p : str) (rest : list str) :
  rest <> [] -> join [NL] (p :: rest) = p ++ NL :: join [NL] rest.
Proof. destruct rest; [contradiction|reflexivity]. Qed.

Lemma split_join (ls : list str) :
  ls <> [] -> split NL (join [NL] ls) = flat_map (split NL) ls.
Proof.
  induction ls as [|p rest IH]; [contradiction|]. intros _.
  destruct rest as [|q rest].
  - simpl. rewrite app_nil_r. reflexivity.
  - rewrite join_cons by discriminate.
    rewrite split_app_newline, IH by discriminate. reflexivity.
Qed.

Lemma split_join_lines (ls : list str) :
  ls <> [] -> Forall no_newline ls -> split NL (join [NL] ls) = ls.
Proof.
  intros H F. rewrite (split_join H). clear H.
  induction F as [|l ls Hl _ IH]; [reflexivity|].
  simpl. rewrite (split_no_newline Hl), IH. reflexivity.
Qed.

Lemma in_split_join (l : str) (ls : list str) :
  In l ls -> no_newline l -> In l (split NL (join [NL] ls)).
Proof.
  intros H Hl. rewrite split_join by (intros E; rewrite E in H; exact H).
  apply in_flat_map. exists l. split; [exact H|].
  rewrite (split_no_newline Hl). left. reflexivity.
Qed.

Lemma dropwhile_Forall (P : N -> Prop) (p : N -> bool) (s : str) :
  Forall P s -> Forall P (dropwhile p s).
Proof.
  induction 1 as [|c s Hc Hs IH]; simpl; [constructor|].
  destruct (p c); [exact IH | constructor; assumption].
Qed.

Lemma strip_Forall (P : N -> Prop) (s : str) :
  Forall P s -> Forall P (strip s).
Proof.
  intros H. unfold strip, lstrip. apply rstrip_Forall.
  apply dropwhile_Forall. exact H.
Qed.


Lemma sub_delete_Forall (P : N -> Prop) (m : bool -> str -> option nat)
      (s : str) :
  Forall P s -> forall k bol, Forall P (sub_delete m k bol s).
Proof.
  induction 1 as [|c s Hc _ IH]; intros k bol; cbn [sub_delete].
  - constructor.
  - destruct k; [|apply IH].
    destruct (m bol (c :: s)) as [[|n]|]; try apply IH;
      constructor; auto.
Qed.

Lemma clean_line_Forall (P : N -> Prop) (s : str) :
  P 46%N -> Forall P s -> Forall P (clean_line s).
Proof.
  intros Hdot H. unfold clean_line. apply rstrip_Forall.
  repeat apply replace_Forall; try (repeat constructor; assumption).
  unfold remove_box_chars, remove_ansi_codes.
  apply Forall_forall. intros c Hc. apply filter_In in Hc.
  destruct Hc as [Hc _]. revert c Hc. apply Forall_forall.
  apply sub_delete_Forall. exact H.
Qed.

Lemma clean_line_no_newline (l : str) :
  no_newline l -> no_newline (clean_line l).
Proof. apply clean_line_Forall. discriminate. Qed.

Lemma strip_nil_iff (s : str) : strip s = [] <-> forallb isspace s = true.
Proof.
  unfold strip. rewrite rstrip_nil_iff. unfold lstrip.
  induction s as [|c s IH]; simpl; [tauto|].
  destruct (isspace c) eqn:E; simpl; [exact IH|].
  rewrite E. simpl. tauto.
Qed.

Lemma strip_head (c : N) (s : str) :
  isspace c = false -> truthy (strip (c :: s)) = true.
Proof.
  intros H. destruct (strip (c :: s)) eqn:E; [|reflexivity].
  apply strip_nil_iff in E. simpl in E. rewrite H in E. discriminate.
Qed.

End Lines.

(** ** The renderer *)

Section Renderer.

(** Cutting the runs of newlines removes empty lines only. *)
Lemma cap_newlines_lines (s : str) :
  (forall n l, l <> [] -> In l (split NL s) ->
               In l (split NL (cap_newlines n s)))
  /\ (forall n l, n < 3 -> l <> [] -> In l (tl (split NL s)) ->
                  In l (tl (split NL (cap_newlines n s))))
  /\ (forall n, n < 3 ->
                hd [] (split NL (cap_newlines n s)) = hd [] (split NL s)).
Proof.
  induction s as [|c s [IHC [IHB IHA]]].
  - split; [|split].
    + intros n l Hl [E|[]]. congruence.
    + intros n l _ _ [].
    + reflexivity.
  - destruct (N.eq_dec c NL) as [E|E].
    + subst c. rewrite split_cons_newline. split; [|split].
      * intros n l Hl [E|H]; [congruence|].
        cbn [cap_newlines]. rewrite N.eqb_refl.
        destruct (n <? 3).
        -- rewrite split_cons_newline. right. apply IHC; assumption.
        -- apply IHC; assumption.
      * intros n l Hn Hl H. cbn [cap_newlines tl] in *. rewrite N.eqb_refl.
        apply Nat.ltb_lt in Hn. rewrite Hn. rewrite split_cons_newline.
        cbn [tl]. apply IHC; assumption.
      * intros n Hn. cbn [cap_newlines]. rewrite N.eqb_refl.
        apply Nat.ltb_lt in Hn. rewrite Hn. reflexivity.
    + assert (R : forall n, cap_newlines n (c :: s) = c :: cap_newlines 0 s).
      { intros n. cbn [cap_newlines]. apply N.eqb_neq in E. rewrite E.
        reflexivity. }
      rewrite (split_cons_other s E). split; [|split].
      * intros n l Hl [H|H]; rewrite R, (split_cons_other _ E).
        -- left. rewrite IHA by lia. exact H.
        -- right. apply IHB; [lia | assumption | assumption].
      * intros n l Hn Hl H. rewrite R, (split_cons_other _ E).
        cbn [tl] in *. apply IHB; [lia | assumption | assumption].
      * intros n Hn. rewrite R, (split_cons_other _ E). cbn [hd].
        rewrite IHA by lia. reflexivity.
Qed.

Lemma collapse_loop_keeps (l : str) (lines : list str) :
  truthy (strip l) = true -> In l lines ->
  forall k, In l (collapse_loop lines k).
Proof.
  intros Hl. induction lines as [|x lines IH]; intros H k; [contradiction|].
  cbn [collapse_loop]. destruct H as [H|H].
  - subst x. rewrite Hl. left. reflexivity.
  - destruct (negb (truthy (strip x))).
    + destruct (S k <=? 2); [right|]; apply IH; exact H.
    + right. apply IH; exact H.
Qed.

Lemma collapse_loop_lines (lines : list str) :
  Forall no_newline lines ->
  forall k, Forall no_newline (collapse_loop lines k).
Proof.
  induction 1 as [|x lines Hx _ IH]; intros k; cbn [collapse_loop].
  - constructor.
  - destruct (negb (truthy (strip x))).
    + destruct (S k <=? 2); [constructor; [constructor|]|]; apply IH.
    + constructor; [exact Hx | apply IH].
Qed.

(** A line of the text that is not blank is a line of the collapsed
    text. *)
Lemma collapse_whitespace_keeps (l text : str) :
  truthy (strip l) = true -> In l (split NL text) ->
  In l (split NL (collapse_whitespace text)).
Proof.
  intros Hl H. unfold collapse_whitespace.
  assert (Hne : l <> []) by (intros E; subst l; discriminate).
  assert (K : In l (collapse_loop (split NL (cap_newlines 0 text)) 0)).
  { apply collapse_loop_keeps; [exact Hl|].
    apply (proj1 (cap_newlines_lines text)); assumption. }
  rewrite split_join_lines.
  - exact K.
  - intros E. rewrite E in K. exact K.
  - apply collapse_loop_lines. apply split_lines.
Qed.

End Renderer.

Section Heading.

Lemma header_of_line (t : turn) : no_newline (header_of t).
Proof.
  unfold header_of. apply strip_Forall.
  pose proof (split_lines (clean_content (strip (content t)))) as H.
  destruct H; [constructor | assumption].
Qed.

Lemma render_user_turn (t : turn) :
  type t = user -> header_of t <> [] ->
  exists rest,
    render_turn t = (u "# " ++ truncate_header (header_of t)) :: rest.
Proof.
  intros U H. unfold render_turn.
  destruct (strip (content t)) as [|c s] eqn:E.
  - exfalso. apply H. unfold header_of. rewrite E. reflexivity.
  - cbn [truthy negb]. rewrite U. unfold header_of. rewrite E.
    eexists. reflexivity.
Qed.




End Heading.

(** ** The segmenter *)

Section Segmenter.

(** The banner is skipped only at the start: once a prompt has been
    seen the flag stays off, and while it is on nothing has been
    collected. *)
Lemma step_skip_banner_off (st : pstate) (line : str) :
  skip_banner st = false -> skip_banner (step st line) = false.
Proof.
  intros H. unfold step. rewrite H. cbv zeta.
  repeat match goal with
         | |- context [if ?b then _ else _] => destruct b
         end; assumption || reflexivity.
Qed.

Lemma step_skip_banner_on (st : pstate) (line : str) :
  skip_banner (step st line) = true -> step st line = st.
Proof.
  unfold step. cbv zeta.
  destruct (skip_banner st) eqn:S.
  - repeat match goal with
           | |- context [if ?b then _ else _] => destruct b
           end; cbn; intros H; reflexivity || discriminate.
  - repeat match goal with
           | |- context [if ?b then _ else _] => destruct b
           end; cbn; intros H; reflexivity || discriminate || congruence.
Qed.

Lemma state_after_snoc (pre : list str) (line : str) :
  state_after (pre ++ [line]) = step (state_after pre) line.
Proof. unfold state_after. rewrite fold_left_app. reflexivity. Qed.

Lemma skipping_is_initial (pre : list str) :
  skip_banner (state_after pre) = true -> state_after pre = initial.
Proof.
  induction pre as [|line pre IH] using rev_ind; [reflexivity|].
  rewrite state_after_snoc. intros H.
  pose proof (step_skip_banner_on _ _ H) as E. rewrite E in H |- *.
  apply IH. exact H.
Qed.

Lemma turn_in_progress (pre : list str) (s : speaker) :
  current_turn (state_after pre) = Some s ->
  skip_banner (state_after pre) = false.
Proof.
  intros H. destruct (skip_banner (state_after pre)) eqn:S; [|reflexivity].
  rewrite (skipping_is_initial pre S) in H. discriminate.
Qed.

(** A step appends nothing, or the turn it saves. *)
Lemma step_turns (st : pstate) (line : str) :
  turns (step st line) = turns st \/ turns (step st line) = save_turn st.
Proof.
  unfold step. cbv zeta.
  repeat match goal with
         | |- context [if ?b then _ else _] => destruct b
         end; cbn; auto.
Qed.

Lemma save_turn_from (st : pstate) (t : turn) :
  In t (save_turn st) ->
  In t (turns st)
  \/ (current_turn st = Some (type t)
      /\ current_content st <> []
      /\ content t = join [NL] (current_content st)).
Proof.
  unfold save_turn. destruct (current_turn st) as [s|]; [|auto].
  destruct (current_content st) as [|l ls] eqn:C; cbn [truthy]; [auto|].
  intros H. apply in_app_or in H. destruct H as [H|[H|[]]]; [auto|].
  right. subst t. cbn. split; [reflexivity|]. split; [discriminate|].
  reflexivity.
Qed.

Lemma save_turn_skip (T : list turn) (c : option speaker) (ls : list str)
      (b b' : bool) :
  save_turn (PState T c ls b) = save_turn (PState T c ls b').
Proof. reflexivity. Qed.

Lemma pstate_eta (st : pstate) :
  PState (turns st) (current_turn st) (current_content st) (skip_banner st)
  = st.
Proof. destruct st. reflexivity. Qed.

(** The step on a prompt that carries a system command, past the
    banner. *)
Lemma step_system_command (st : pstate) (line : str) :
  skip_banner st = false ->
  is_timing_line (clean_line line) = false ->
  is_system_response (clean_line line) = false ->
  is_user_prompt (clean_line line) = true ->
  is_system_command (strip_prompt (strip (clean_line line))) = true ->
  step st line = PState (save_turn st) None [] false.
Proof.
  intros S T R U C. unfold step. cbv zeta. rewrite S, T, R, U, C.
  rewrite <- S at 1. rewrite pstate_eta. reflexivity.
Qed.

(** The step on a marker line while no response is in progress, and
    while one is. *)
Lemma step_marker_start (st : pstate) (line : str) :
  skip_banner st = false -> plain_line line ->
  has_claude_marker line = true ->
  is_turn (current_turn st) claude = false ->
  step st line =
  PState (save_turn st) (Some claude)
         (if truthy (strip (clean_line line)) then [clean_line line] else [])
         false.
Proof.
  intros S [T [R U]] M C. unfold step. cbv zeta.
  rewrite S, T, R, U, M. cbn [current_turn]. rewrite C. cbn [negb andb].
  rewrite <- S at 1. rewrite pstate_eta. reflexivity.
Qed.

Lemma step_marker_continue (st : pstate) (line : str) :
  skip_banner st = false -> plain_line line ->
  has_claude_marker line = true ->
  current_turn st = Some claude ->
  step st line =
  PState (turns st) (Some claude) (current_content st ++ [clean_line line])
         false.
Proof.
  intros S [T [R U]] M C. unfold step. cbv zeta.
  rewrite S, T, R, U, M. cbn [current_turn turns current_content].
  rewrite C. reflexivity.
Qed.

Lemma marker_alone_plain : plain_line [MARKER].
Proof. repeat split. Qed.

(** Every turn of a run was saved from the state some prefix of the
    lines had led to. *)
Lemma emitted_turns (ls : list str) :
  forall (st0 : pstate) (t : turn),
    In t (turns (fold_left step ls st0)) ->
    In t (turns st0)
    \/ exists pre post,
        ls = pre ++ post
        /\ current_turn (fold_left step pre st0) = Some (type t)
        /\ current_content (fold_left step pre st0) <> []
        /\ content t = join [NL] (current_content (fold_left step pre st0)).
Proof.
  induction ls as [|l ls IH]; intros st0 t H; [left; exact H|].
  cbn [fold_left] in H. apply IH in H. destruct H as [H|[pre [post [E H]]]].
  - destruct (step_turns st0 l) as [S|S]; rewrite S in H; [left; exact H|].
    apply save_turn_from in H. destruct H as [H|H]; [left; exact H|].
    right. exists [], (l :: ls). split; [reflexivity | exact H].
  - right. exists (l :: pre), post. split; [rewrite E; reflexivity | exact H].
Qed.

(** C2, as stated, fails: a prompt without text followed by an empty
    line is emitted as a user turn whose content is the empty string. *)
Lemma empty_content_is_emitted :
  parse_export empty_prompt_export = [Turn user []]
  /\ exists t, In t (parse_export empty_prompt_export) /\ content t = [].
Proof.
  split; [reflexivity|]. exists (Turn user []).
  split; [left|]; reflexivity.
Qed.

(** C2, amended: every turn of the output of [parse_export] was joined
    from a list of collected lines that was not empty when the turn was
    saved; a turn without any collected line is dropped. (The joined
    string is empty when the only collected line is.) *)
Theorem emitted_turn_has_lines (text : str) (t : turn) :
  In t (parse_export text) ->
  exists pre post,
    split NL (remove_line_numbers text) = pre ++ post
    /\ current_turn (state_after pre) = Some (type t)
    /\ current_content (state_after pre) <> []
    /\ content t = join [NL] (current_content (state_after pre)).
Proof.
  unfold parse_export, parse_lines. cbv zeta.
  set (ls := split NL (remove_line_numbers text)). intros H.
  apply save_turn_from in H. destruct H as [H|H].
  - apply emitted_turns in H. destruct H as [[]|H]. exact H.
  - exists ls, []. split; [rewrite app_nil_r; reflexivity | exact H].
Qed.

Lemma emitted_turn_has_lines_witness :
  exists pre post,
    split NL (remove_line_numbers hello_export) = pre ++ post
    /\ current_turn (state_after pre) = Some user
    /\ current_content (state_after pre) <> []
    /\ u "hello" = join [NL] (current_content (state_after pre)).
Proof.
  apply (emitted_turn_has_lines hello_export (Turn user (u "hello"))).
  vm_compute. left. reflexivity.
Defined.

Lemma parse_export_from (text : str) (pre post : list str) :
  split NL (remove_line_numbers text) = pre ++ post ->
  parse_export text = save_turn (fold_left step post (state_after pre)).
Proof.
  intros E. unfold parse_export, parse_lines, state_after. cbv zeta.
  rewrite E, fold_left_app. reflexivity.
Qed.

(** C3, as stated, fails: a prompt whose text is a system command and
    which also holds the echo of the command is discarded as a system
    response, before it is read as a prompt; the response in progress is
    not flushed and goes on with the next line. *)
Lemma echoed_command_does_not_flush :
  let st := state_after [u "❯ q"; u "⏺ yo"] in
  current_turn st = Some claude
  /\ is_user_prompt (clean_line rename_echo_line) = true
  /\ is_system_command (strip_prompt (strip (clean_line rename_echo_line)))
     = true
  /\ step st rename_echo_line = st
  /\ parse_export
       (join [NL] [u "❯ q"; u "⏺ yo"; rename_echo_line; u "more"])
     = [Turn user (u "q"); Turn claude (join [NL] [u " yo"; u "more"])].
Proof. repeat split. Qed.

(** C3, amended: when a user-prompt line whose prompt text is a system
    command, and which is not discarded before as a timing line or a
    system response, follows the lines of a response in progress, the
    response is saved if it has collected a line, nothing is saved for
    the command line, and no turn is current after it; the rest of the
    input is read from that state. *)
Theorem system_command_flushes_response (text : str) (pre post : list str)
        (line : str) :
  split NL (remove_line_numbers text) = pre ++ line :: post ->
  current_turn (state_after pre) = Some claude ->
  is_user_prompt (clean_line line) = true ->
  is_system_command (strip_prompt (strip (clean_line line))) = true ->
  is_timing_line (clean_line line) = false ->
  is_system_response (clean_line line) = false ->
  let st := state_after pre in
  let saved :=
    if truthy (current_content st)
    then turns st ++ [Turn claude (join [NL] (current_content st))]
    else turns st in
  state_after (pre ++ [line]) = PState saved None [] false
  /\ parse_export text
     = save_turn (fold_left step post (PState saved None [] false)).
Proof.
  intros E C U Y T R st saved.
  assert (S : step st line = PState saved None [] false).
  { unfold st. rewrite step_system_command;
      [|exact (turn_in_progress pre C)|assumption..].
    f_equal. unfold saved, save_turn, st. rewrite C. reflexivity. }
  split.
  - rewrite state_after_snoc. exact S.
  - rewrite (parse_export_from text pre (line :: post) E).
    cbn [fold_left]. fold st. rewrite S. reflexivity.
Qed.

Lemma system_command_flushes_response_witness :
  state_after [u "❯ q"; u "⏺ yo"; rename_line]
  = PState [Turn user (u "q"); Turn claude (u " yo")] None [] false
  /\ parse_export (join [NL] [u "❯ q"; u "⏺ yo"; rename_line; u "more"])
     = [Turn user (u "q"); Turn claude (u " yo"); Turn claude (u "more")].
Proof.
  exact (system_command_flushes_response
           (join [NL] [u "❯ q"; u "⏺ yo"; rename_line; u "more"])
           [u "❯ q"; u "⏺ yo"] [u "more"] rename_line
           eq_refl eq_refl eq_refl eq_refl eq_refl eq_refl).
Defined.

(** C1, as stated, fails: the line that holds only the marker opens the
    response without adding a line to it, so the response has two lines;
    and before the first prompt all three lines are skipped with the
    banner. *)
Lemma marker_only_line_adds_no_line :
  parse_export three_marker_lines
  = [Turn user (u "q"); Turn claude (join [NL] [u " a"; u " b"])]
  /\ length (split NL (join [NL] [u " a"; u " b"])) = 2
  /\ parse_export bare_marker_lines = [].
Proof. repeat split. Qed.

(** C1, amended: past the banner and with no response in progress, a
    line that holds only the marker, followed by two more marker lines
    that end the input (none of them a prompt, a timing line or a system
    response), yields exactly one assistant turn after what was there
    before, and its content is made of exactly 2 lines, the two cleaned
    lines that follow the marker-only line. *)
Theorem marker_lines_merge (text : str) (pre : list str) (l1 l2 : str) :
  split NL (remove_line_numbers text) = pre ++ [[MARKER]; l1; l2] ->
  skip_banner (state_after pre) = false ->
  current_turn (state_after pre) <> Some claude ->
  has_claude_marker l1 = true -> plain_line l1 ->
  has_claude_marker l2 = true -> plain_line l2 ->
  parse_export text
  = save_turn (state_after pre)
    ++ [Turn claude (join [NL] [clean_line l1; clean_line l2])]
  /\ length (split NL (join [NL] [clean_line l1; clean_line l2])) = 2.
Proof.
  intros E S C M1 P1 M2 P2. split.
  2:{ pose proof (split_lines (remove_line_numbers text)) as F.
      rewrite E in F. apply Forall_app in F. destruct F as [_ F].
      inversion F as [|? ? _ F1]; subst. inversion F1 as [|? ? H1 F2]; subst.
      inversion F2 as [|? ? H2 _]; subst.
      rewrite split_join_lines; [reflexivity | discriminate |].
      repeat constructor; apply clean_line_no_newline; assumption. }
  rewrite (parse_export_from text pre _ E). cbn [fold_left].
  rewrite (step_marker_start (state_after pre) S marker_alone_plain eq_refl).
  - change (if truthy (strip (clean_line [MARKER]))
            then [clean_line [MARKER]] else []) with (@nil str).
    rewrite (@step_marker_continue (PState _ _ _ _) l1 eq_refl P1 M1 eq_refl).
    rewrite (@step_marker_continue (PState _ _ _ _) l2 eq_refl P2 M2 eq_refl).
    reflexivity.
  - destruct (current_turn (state_after pre)) as [[|]|]; try reflexivity.
    congruence.
Qed.

Lemma marker_lines_merge_witness :
  parse_export three_marker_lines
  = [Turn user (u "q"); Turn claude (join [NL] [u " a"; u " b"])].
Proof.
  refine (proj1 (marker_lines_merge three_marker_lines [u "❯ q"]
                   (l1 := u "⏺ a") (l2 := u "⏺ b")
                   eq_refl eq_refl _ eq_refl _ eq_refl _)).
  - discriminate.
  - repeat split.
  - repeat split.
Defined.

End Segmenter.

(** ** The normalizer *)

Section Normalizer.

Lemma indent_of_span (l : str) : indent_of l = span_len isspace l.
Proof.
  unfold indent_of, lstrip. induction l as [|c l IH]; [reflexivity|].
  cbn [dropwhile span_len]. destruct (isspace c); [|simpl; lia].
  rewrite <- IH. cbn [length].
  assert (length (dropwhile isspace l) <= length l).
  { clear. induction l as [|c l IH]; simpl; [lia|].
    destruct (isspace c); simpl; lia. }
  lia.
Qed.

Lemma lstrip_skipn (m : nat) (l : str) :
  m <= span_len isspace l -> lstrip (skipn m l) = lstrip l.
Proof.
  unfold lstrip. revert l. induction m as [|m IH]; intros l H; [reflexivity|].
  destruct l as [|c l]; [reflexivity|]. cbn [span_len] in H.
  cbn [skipn dropwhile]. destruct (isspace c); [|lia].
  apply IH. lia.
Qed.

Lemma forallb_skipn (p : N -> bool) (m : nat) (l : str) :
  forallb p l = true -> forallb p (skipn m l) = true.
Proof.
  intros H. rewrite <- (firstn_skipn m l), forallb_app in H.
  apply andb_prop in H. tauto.
Qed.

Lemma strip_dedent (m : nat) (l : str) :
  (nonblank l = true -> m <= indent_of l) ->
  strip (dedent m l) = strip l.
Proof.
  intros H. unfold dedent.
  destruct (truthy l && (m <=? length l)); [|reflexivity].
  destruct (nonblank l) eqn:B.
  - unfold strip. rewrite lstrip_skipn; [reflexivity|].
    rewrite <- indent_of_span. auto.
  - unfold nonblank in B. destruct (strip l) eqn:E; [|discriminate].
    apply strip_nil_iff. apply forallb_skipn. apply strip_nil_iff. exact E.
Qed.

Lemma fold_min_le (xs : list nat) :
  forall a, fold_left Nat.min xs a <= a
            /\ forall x, In x xs -> fold_left Nat.min xs a <= x.
Proof.
  induction xs as [|y xs IH]; intros a; simpl.
  - split; [lia | intros x []].
  - destruct (IH (Nat.min a y)) as [A B]. split; [lia|].
    intros x [E|H]; [subst; lia | apply B; exact H].
Qed.

Lemma min_indent_le (lines : list str) (l : str) :
  In l lines -> nonblank l = true -> min_indent_of lines <= indent_of l.
Proof.
  intros H B. unfold min_indent_of.
  assert (F : In l (filter (fun line => truthy (strip line)) lines)).
  { apply filter_In. split; assumption. }
  destruct (filter _ lines) as [|x xs]; [contradiction|].
  destruct (fold_min_le (List.map indent_of xs) (indent_of x)) as [A C].
  destruct F as [E|F]; [subst; exact A|].
  apply C. apply in_map. exact F.
Qed.

Lemma separator_nonblank (l : str) :
  separator_line l = true -> nonblank l = true.
Proof.
  unfold separator_line, nonblank, is_separator.
  destruct (strip l); [discriminate | reflexivity].
Qed.

(** The loop of [clean_content], one line at a time. *)
Lemma clean_loop_separator (m : nat) (l : str) (rest cleaned : list str)
      (prev : bool) :
  separator_line l = true ->
  clean_loop m (l :: rest) cleaned prev =
  clean_loop m rest cleaned
    (if truthy cleaned && truthy (strip (last cleaned [])) then true else prev).
Proof. unfold separator_line. intros H. cbn [clean_loop]. rewrite H. reflexivity. Qed.

Lemma clean_loop_other (m : nat) (l : str) (rest cleaned : list str)
      (prev : bool) :
  separator_line l = false ->
  clean_loop m (l :: rest) cleaned prev =
  if prev && negb (nonblank l) then clean_loop m rest cleaned false
  else clean_loop m rest (cleaned ++ [dedent m l]) false.
Proof. unfold separator_line. intros H. cbn [clean_loop]. rewrite H. reflexivity. Qed.

Section Loop.
Variable m : nat.

Lemma clean_loop_no_separator (lines : list str) :
  (forall l, In l lines -> nonblank l = true -> m <= indent_of l) ->
  forall cleaned prev,
    Forall (fun l => separator_line l = false) cleaned ->
    Forall (fun l => separator_line l = false) (clean_loop m lines cleaned prev).
Proof.
  induction lines as [|l lines IH]; intros H cleaned prev F; [exact F|].
  assert (H' : forall x, In x lines -> nonblank x = true -> m <= indent_of x)
    by (intros x Hx; apply H; right; exact Hx).
  destruct (separator_line l) eqn:S.
  - rewrite clean_loop_separator by exact S. apply IH; assumption.
  - rewrite clean_loop_other by exact S.
    destruct (prev && negb (nonblank l)); apply IH; try assumption.
    apply Forall_app. split; [exact F|]. constructor; [|constructor].
    unfold separator_line. rewrite strip_dedent; [exact S|].
    apply H. left. reflexivity.
Qed.

Lemma clean_loop_nonblank (lines : list str) :
  (forall l, In l lines -> nonblank l = true -> m <= indent_of l) ->
  forall cleaned prev,
    filter nonblank (clean_loop m lines cleaned prev)
    = filter nonblank cleaned
      ++ List.map (dedent m)
           (filter (fun l => nonblank l && negb (separator_line l)) lines).
Proof.
  induction lines as [|l lines IH]; intros H cleaned prev.
  - simpl. rewrite app_nil_r. reflexivity.
  - assert (H' : forall x, In x lines -> nonblank x = true -> m <= indent_of x)
      by (intros x Hx; apply H; right; exact Hx).
    assert (D : nonblank (dedent m l) = nonblank l).
    { unfold nonblank. rewrite strip_dedent; [reflexivity|].
      apply H. left. reflexivity. }
    cbn [filter]. destruct (separator_line l) eqn:S.
    + rewrite clean_loop_separator by exact S. rewrite andb_false_r.
      apply IH. exact H'.
    + rewrite clean_loop_other by exact S. rewrite andb_true_r.
      destruct (nonblank l) eqn:B.
      * rewrite andb_false_r. rewrite IH by exact H'.
        rewrite filter_app. cbn [filter]. rewrite D.
        rewrite <- app_assoc. reflexivity.
      * destruct prev; cbn [andb negb]; rewrite IH by exact H'.
        -- reflexivity.
        -- rewrite filter_app. cbn [filter]. rewrite D, app_nil_r.
           reflexivity.
Qed.

Lemma clean_loop_all (lines : list str) :
  forall cleaned prev after,
    (prev = true -> after = true) ->
    (after = true -> match lines with
                     | [] => True
                     | b :: _ => separator_line b = true \/ nonblank b = true
                     end) ->
    blank_after_separator lines = false ->
    clean_loop m lines cleaned prev
    = cleaned
      ++ List.map (dedent m) (filter (fun l => negb (separator_line l)) lines).
Proof.
  induction lines as [|l lines IH]; intros cleaned prev after P A B.
  - simpl. rewrite app_nil_r. reflexivity.
  - assert (B' : blank_after_separator lines = false).
    { cbn [blank_after_separator] in B. destruct lines; [reflexivity|].
      apply orb_false_elim in B. tauto. }
    cbn [filter]. destruct (separator_line l) eqn:S.
    + rewrite clean_loop_separator by exact S. cbn [negb].
      apply (IH _ _ true); [reflexivity | | exact B'].
      intros _. cbn [blank_after_separator] in B.
      destruct lines as [|b lines]; [exact I|].
      apply orb_false_elim in B. destruct B as [B _]. rewrite S in B.
      cbn [andb] in B. apply negb_false_iff in B.
      right. exact B.
    + rewrite clean_loop_other by exact S. cbn [negb].
      assert (E : prev && negb (nonblank l) = false).
      { destruct prev; [|reflexivity]. cbn [andb].
        destruct (A (P eq_refl)) as [A'|A']; [congruence|].
        rewrite A'. reflexivity. }
      rewrite E. rewrite (IH _ false false); [| discriminate | discriminate | exact B'].
      cbn [List.map]. rewrite <- app_assoc. reflexivity.
Qed.

(** Under a line of content, a separator takes the blank line after it
    along. *)
Lemma clean_loop_underline (sep blank : str) (rest cleaned : list str)
      (prev : bool) :
  separator_line sep = true -> nonblank blank = false ->
  nonblank (last cleaned []) = true ->
  clean_loop m (sep :: blank :: rest) cleaned prev
  = clean_loop m rest cleaned false.
Proof.
  intros S B L. rewrite clean_loop_separator by exact S.
  assert (T : truthy cleaned = true).
  { destruct cleaned; [discriminate L | reflexivity]. }
  unfold nonblank in L. rewrite T, L. cbn [andb].
  rewrite clean_loop_other.
  - rewrite B. reflexivity.
  - destruct (separator_line blank) eqn:E; [|reflexivity].
    apply separator_nonblank in E. congruence.
Qed.

End Loop.

(** C7, as stated, fails: the blank line after the underline of a title
    is removed with the underline. *)
Lemma blank_line_after_underline_is_dropped :
  clean_content underlined_title = join [NL] [u "a"; u "b"]
  /\ clean_content underlined_title <> join [NL] [u "a"; []; u "b"].
Proof. split; [reflexivity | discriminate]. Qed.

(** C7, amended: no line of the normalized content is a pure separator;
    every line that is neither blank nor a separator appears in it, in
    order, unchanged apart from the uniform dedent; when no blank line
    directly follows a separator, every line but the separators appears
    so; and a separator that follows non-blank content is removed
    together with the blank line directly after it, the loop going on as
    if neither had been there. *)
Theorem separators_are_removed (text : str) :
  Forall (fun l => separator_line l = false) (clean_content_lines text)
  /\ filter nonblank (clean_content_lines text)
     = List.map (dedent (min_indent_of (split NL text)))
         (filter (fun l => nonblank l && negb (separator_line l))
                 (split NL text))
  /\ (blank_after_separator (split NL text) = false ->
      clean_content_lines text
      = List.map (dedent (min_indent_of (split NL text)))
          (filter (fun l => negb (separator_line l)) (split NL text)))
  /\ (forall sep blank rest cleaned prev,
        separator_line sep = true -> nonblank blank = false ->
        nonblank (last cleaned []) = true ->
        clean_loop (min_indent_of (split NL text))
                   (sep :: blank :: rest) cleaned prev
        = clean_loop (min_indent_of (split NL text)) rest cleaned false)
  /\ clean_content text = join [NL] (clean_content_lines text).
Proof.
  unfold clean_content, clean_content_lines. cbv zeta.
  set (lines := split NL text).
  assert (H : forall l, In l lines -> nonblank l = true ->
                        min_indent_of lines <= indent_of l)
    by (intros l; apply min_indent_le).
  split; [|split; [|split; [|split]]].
  - apply clean_loop_no_separator; [exact H | constructor].
  - rewrite clean_loop_nonblank by exact H. reflexivity.
  - intros B. rewrite (@clean_loop_all _ lines [] false false);
      [reflexivity | discriminate | discriminate | exact B].
  - intros sep blank rest cleaned prev. apply clean_loop_underline.
  - reflexivity.
Qed.

Lemma separators_are_removed_witness :
  blank_after_separator (split NL indented_rule) = false
  /\ clean_content_lines indented_rule
     = [u "Title"; u "  body"; []; u "end"].
Proof.
  split; [reflexivity|].
  rewrite (proj1 (proj2 (proj2 (separators_are_removed indented_rule)))
             eq_refl).
  reflexivity.
Defined.

End Normalizer.

(** ** Line numbers and the banner *)

Section LineNumbers.

Lemma span_len_le (p : N -> bool) (s : str) : span_len p s <= length s.
Proof.
  induction s as [|c s IH]; simpl; [lia|]. destruct (p c); simpl; lia.
Qed.

Lemma span_len_all (p : N -> bool) (l s : str) :
  forallb p l = true -> span_len p (l ++ s) = length l + span_len p s.
Proof.
  induction l as [|c l IH]; intros H; [reflexivity|].
  simpl in H. apply andb_prop in H. destruct H as [Hc Hl].
  simpl. rewrite Hc, IH by exact Hl. reflexivity.
Qed.

Lemma span_len_stop (p : N -> bool) (l s : str) :
  forallb p l = false ->
  span_len p (l ++ s) = span_len p l /\ span_len p l < length l.
Proof.
  induction l as [|c l IH]; intros H; [discriminate|].
  simpl in H. simpl. destruct (p c); simpl in *; [|lia].
  destruct (IH H) as [A B]. lia.
Qed.

Lemma span_len_prefix (p : N -> bool) (s : str) :
  forallb p (firstn (span_len p s) s) = true.
Proof.
  induction s as [|c s IH]; [reflexivity|].
  simpl. destruct (p c) eqn:E; [|reflexivity].
  simpl. rewrite E. exact IH.
Qed.

Lemma skipn_add (a b : nat) (s : str) :
  skipn (a + b) s = skipn b (skipn a s).
Proof.
  revert s. induction a as [|a IH]; intros s; [reflexivity|].
  destruct s as [|c s]; simpl; [destruct b; reflexivity | apply IH].
Qed.

Lemma skipn_length_app (l s : str) : skipn (length l) (l ++ s) = s.
Proof. induction l as [|c l IH]; [reflexivity | exact IH]. Qed.

Lemma skipn_inside (n : nat) (l s : str) :
  n <= length l -> skipn n (l ++ s) = skipn n l ++ s.
Proof.
  intros H. rewrite skipn_app.
  replace (n - length l) with 0 by lia. reflexivity.
Qed.

(** A line of whitespace is only a part of the match that may start in
    it. *)
Lemma line_number_match_blank (l T : str) :
  forallb isspace l = true ->
  line_number_match true (l ++ NL :: T)
  = option_map (fun n => length l + 1 + n) (line_number_match true T).
Proof.
  intros H. unfold line_number_match.
  rewrite span_len_all by exact H.
  change (span_len isspace (NL :: T)) with (S (span_len isspace T)).
  set (w := span_len isspace T).
  replace (length l + S w) with (length l + (1 + w)) by lia.
  rewrite skipn_add, skipn_length_app.
  change (skipn (1 + w) (NL :: T)) with (skipn w T).
  destruct (span_len isdecimal (skipn w T)) as [|d]; [reflexivity|].
  destruct (skipn (S d) (skipn w T)) as [|a r]; [reflexivity|].
  destruct (a =? ARROW)%N; [|reflexivity].
  cbn [option_map]. f_equal. lia.
Qed.

(** A match that starts in a line with some text ends in that line. *)
Lemma line_number_match_text (l T : str) :
  forallb isspace l = false ->
  line_number_match true (l ++ NL :: T) = line_number_match true l.
Proof.
  intros H. unfold line_number_match.
  destruct (@span_len_stop isspace l (NL :: T) H) as [E L]. rewrite E.
  set (w := span_len isspace l) in *.
  rewrite skipn_inside by lia.
  set (l1 := skipn w l).
  destruct (forallb isdecimal l1) eqn:D.
  - rewrite span_len_all by exact D. cbn [span_len].
    change (isdecimal NL) with false. cbv iota. rewrite Nat.add_0_r.
    assert (E1 : span_len isdecimal l1 = length l1).
    { pose proof (@span_len_all isdecimal l1 [] D) as X.
      rewrite app_nil_r in X. simpl in X. lia. }
    rewrite E1. destruct (length l1) as [|n] eqn:Len; [reflexivity|].
    rewrite <- Len, skipn_length_app, skipn_all. reflexivity.
  - destruct (@span_len_stop isdecimal l1 (NL :: T) D) as [E1 L1].
    rewrite E1.
    destruct (span_len isdecimal l1) as [|n] eqn:Dn; [reflexivity|].
    rewrite skipn_inside by lia.
    destruct (skipn (S n) l1) as [|a r] eqn:K.
    + apply (f_equal (@length N)) in K. rewrite length_skipn in K.
      simpl in K. lia.
    + reflexivity.
Qed.

(** The shape of a match: whitespace, digits, the arrow. *)
Lemma line_number_match_shape (s : str) (n : nat) :
  line_number_match true s = Some n ->
  exists U rest,
    s = (U ++ [ARROW]) ++ rest
    /\ n = length U + 1
    /\ Forall (fun c => inert c = true) U.
Proof.
  unfold line_number_match.
  set (w := span_len isspace s). set (s1 := skipn w s).
  destruct (span_len isdecimal s1) as [|d] eqn:D; [discriminate|].
  destruct (skipn (S d) s1) as [|a r] eqn:K; [discriminate|].
  destruct (a =? ARROW)%N eqn:A; [|discriminate].
  apply N.eqb_eq in A. subst a. intros E. inversion E; subst n. clear E.
  exists (firstn w s ++ firstn (S d) s1), r.
  pose proof (span_len_le isspace s) as Lw. fold w in Lw.
  pose proof (span_len_le isdecimal s1) as Ld. rewrite D in Ld.
  split; [|split].
  - rewrite <- !app_assoc. cbn [app]. rewrite <- K, firstn_skipn.
    unfold s1. rewrite firstn_skipn. reflexivity.
  - rewrite length_app, !firstn_length_le by lia. lia.
  - apply Forall_app. split; apply Forall_forall; intros c Hc.
    + pose proof (span_len_prefix isspace s) as F.
      rewrite forallb_forall in F. unfold inert.
      rewrite (F c Hc). reflexivity.
    + pose proof (span_len_prefix isdecimal s1) as F. rewrite D in F.
      rewrite forallb_forall in F. unfold inert.
      rewrite (F c Hc), orb_true_r. reflexivity.
Qed.

(** Skipping the characters of a match. *)
Lemma sub_delete_skip (m : bool -> str -> option nat) (V : str) :
  forall (c : N) (s : str),
    sub_delete m (length V) (c =? NL)%N (V ++ s)
    = sub_delete m 0 (last (c :: V) 0 =? NL)%N s.
Proof.
  induction V as [|v V IH]; intros c s; [reflexivity|].
  cbn [length app sub_delete]. rewrite IH. reflexivity.
Qed.

Lemma remove_match (U rest : str) :
  line_number_match true ((U ++ [ARROW]) ++ rest) = Some (length U + 1) ->
  remove_line_numbers ((U ++ [ARROW]) ++ rest)
  = sub_delete line_number_match 0 false rest.
Proof.
  intros M. unfold remove_line_numbers.
  destruct (U ++ [ARROW]) as [|c V] eqn:E.
  - destruct U; discriminate.
  - assert (L : length U + 1 = S (length V)).
    { apply (f_equal (@length N)) in E. rewrite length_app in E.
      simpl in E. lia. }
    rewrite L in M. cbn [app] in *. cbn [sub_delete]. rewrite M.
    rewrite sub_delete_skip, <- E, last_last. reflexivity.
Qed.

(** Past the start of a line, the line is copied. *)
Lemma copy_line (l T : str) :
  no_newline l ->
  sub_delete line_number_match 0 false (l ++ NL :: T)
  = l ++ NL :: remove_line_numbers T.
Proof.
  induction 1 as [|c l Hc _ IH]; cbn [app sub_delete line_number_match].
  - reflexivity.
  - apply N.eqb_neq in Hc. rewrite Hc, IH. reflexivity.
Qed.

Lemma copy_first_line (l T : str) :
  no_newline l ->
  line_number_match true (l ++ NL :: T) = None ->
  remove_line_numbers (l ++ NL :: T) = l ++ NL :: remove_line_numbers T.
Proof.
  intros H M. unfold remove_line_numbers.
  destruct H as [|c l Hc Hl]; cbn [app] in *; cbn [sub_delete]; rewrite M.
  - reflexivity.
  - apply N.eqb_neq in Hc. rewrite Hc. f_equal. apply copy_line. exact Hl.
Qed.

End LineNumbers.

(** ** A line-number prefix in front of a line *)

Section Prefix.

Lemma special_characters_not_inert :
  forallb (fun g => negb (inert g))
          (ESC :: MARKER :: FOOTER :: THINKING :: ELLIPSIS :: BOX_CHARS) = true.
Proof. vm_compute. reflexivity. Qed.

Lemma banner_indicators_heads :
  forallb (fun ind => match ind with
                      | a :: _ => negb (inert a)
                      | [] => false
                      end) banner_indicators = true.
Proof. vm_compute. reflexivity. Qed.

Lemma inert_not_special (c g : N) :
  inert c = true ->
  In g (ESC :: MARKER :: FOOTER :: THINKING :: ELLIPSIS :: BOX_CHARS) ->
  c <> g.
Proof.
  intros Hc Hg E. subst g.
  pose proof special_characters_not_inert as F.
  rewrite forallb_forall in F. apply F in Hg. rewrite Hc in Hg. discriminate.
Qed.

Lemma inert_not_box (c : N) : inert c = true -> is_box_char c = false.
Proof.
  intros Hc. destruct (is_box_char c) eqn:B; [|reflexivity].
  unfold is_box_char in B. apply existsb_exists in B.
  destruct B as [g [Hg E]]. apply N.eqb_eq in E. subst g.
  exfalso. apply (@inert_not_special c c Hc); [|reflexivity].
  do 5 right. exact Hg.
Qed.

Lemma ansi_match_bol (b b' : bool) (s : str) : ansi_match b s = ansi_match b' s.
Proof. reflexivity. Qed.

Lemma remove_ansi_bol (s : str) :
  forall k b b', sub_delete ansi_match k b s = sub_delete ansi_match k b' s.
Proof.
  induction s as [|c s IH]; intros k b b'; [reflexivity|].
  cbn [sub_delete]. rewrite (ansi_match_bol b b'). reflexivity.
Qed.

Lemma remove_ansi_prefix (P s : str) :
  Forall (fun c => c <> ESC) P ->
  remove_ansi_codes (P ++ s) = P ++ remove_ansi_codes s.
Proof.
  unfold remove_ansi_codes. intros H. generalize true at 1.
  induction H as [|c P Hc _ IH]; intros b.
  - apply remove_ansi_bol.
  - cbn [app sub_delete].
    assert (E : ansi_match b (c :: P ++ s) = None).
    { unfold ansi_match. destruct (P ++ s); [reflexivity|].
      apply N.eqb_neq in Hc. rewrite Hc. reflexivity. }
    rewrite E, IH. reflexivity.
Qed.

Lemma remove_box_prefix (P s : str) :
  Forall (fun c => is_box_char c = false) P ->
  remove_box_chars (P ++ s) = P ++ remove_box_chars s.
Proof.
  intros H. unfold remove_box_chars. rewrite filter_app. f_equal.
  induction H as [|c P Hc _ IH]; [reflexivity|].
  cbn [filter]. rewrite Hc. cbn [negb]. f_equal. exact IH.
Qed.

Lemma replace_prefix (old : N) (new P s : str) :
  Forall (fun c => c <> old) P ->
  replace old new (P ++ s) = P ++ replace old new s.
Proof.
  intros H. rewrite <- (replace_absent new H) at 2.
  unfold replace. apply flat_map_app.
Qed.

Lemma rstrip_text (a : N) (z : str) :
  isspace a = false -> rstrip (a :: z) = a :: rstrip z.
Proof. intros H. rewrite rstrip_cons. simpl. rewrite H. reflexivity. Qed.

Lemma rstrip_prefix (U : str) (a : N) (z : str) :
  isspace a = false -> rstrip ((U ++ [a]) ++ z) = (U ++ [a]) ++ rstrip z.
Proof.
  intros H. rewrite <- !app_assoc. cbn [app].
  induction U as [|c U IH]; cbn [app].
  - apply rstrip_text. exact H.
  - rewrite rstrip_cons.
    assert (F : forallb isspace (c :: U ++ a :: z) = false).
    { cbn [forallb]. rewrite forallb_app. cbn [forallb]. rewrite H.
      cbn [andb]. rewrite !andb_false_r. reflexivity. }
    rewrite F, IH. reflexivity.
Qed.

(** The cleaner leaves a line-number prefix in place. *)
Lemma clean_line_prefix (U l : str) :
  Forall (fun c => inert c = true) U ->
  clean_line ((U ++ [ARROW]) ++ l) = (U ++ [ARROW]) ++ clean_line l.
Proof.
  intros HU.
  assert (H : Forall (fun c => inert c = true) (U ++ [ARROW])).
  { apply Forall_app. split; [exact HU | repeat constructor]. }
  assert (S : forall g,
             In g (ESC :: MARKER :: FOOTER :: THINKING :: ELLIPSIS :: BOX_CHARS) ->
             Forall (fun c => c <> g) (U ++ [ARROW])).
  { intros g Hg. eapply Forall_impl; [|exact H].
    intros c Hc. apply inert_not_special; assumption. }
  unfold clean_line.
  rewrite remove_ansi_prefix by (apply S; left; reflexivity).
  rewrite remove_box_prefix
    by (eapply Forall_impl; [|exact H]; apply inert_not_box).
  rewrite (@replace_prefix MARKER) by (apply S; right; left; reflexivity).
  rewrite (@replace_prefix FOOTER) by (apply S; do 2 right; left; reflexivity).
  rewrite (@replace_prefix THINKING)
    by (apply S; do 3 right; left; reflexivity).
  rewrite (@replace_prefix ELLIPSIS)
    by (apply S; do 4 right; left; reflexivity).
  apply rstrip_prefix. reflexivity.
Qed.

Lemma contains_past (a : N) (needle P C : str) :
  Forall (fun c => c <> a) P ->
  contains (a :: needle) (P ++ C) = contains (a :: needle) C.
Proof.
  induction 1 as [|c P Hc _ IH]; [reflexivity|].
  cbn [app contains startswith].
  assert (E : (a =? c)%N = false) by (apply N.eqb_neq; congruence).
  rewrite E. cbn [andb orb]. exact IH.
Qed.

Lemma is_cli_banner_past (P C : str) :
  Forall (fun c => inert c = true) P ->
  is_cli_banner (P ++ C) = is_cli_banner C.
Proof.
  intros H. unfold is_cli_banner.
  pose proof banner_indicators_heads as F. rewrite forallb_forall in F.
  induction banner_indicators as [|ind inds IH]; [reflexivity|].
  cbn [existsb]. rewrite IH by (intros x Hx; apply F; right; exact Hx).
  f_equal. specialize (F ind (or_introl eq_refl)).
  destruct ind as [|a needle]; [discriminate|].
  apply contains_past. eapply Forall_impl; [|exact H].
  intros c Hc E. subst c. rewrite Hc in F. discriminate.
Qed.

(** A line of banner noise is still one without its line number. *)
Lemma banner_noise_suffix (U l : str) :
  Forall (fun c => inert c = true) U ->
  banner_noise ((U ++ [ARROW]) ++ l) = true -> banner_noise l = true.
Proof.
  intros HU. unfold banner_noise. rewrite (@clean_line_prefix U l HU).
  assert (T : truthy (strip ((U ++ [ARROW]) ++ clean_line l)) = true).
  { destruct (strip _) eqn:E; [|reflexivity].
    apply strip_nil_iff in E. rewrite !forallb_app in E.
    change (forallb isspace [ARROW]) with false in E.
    rewrite andb_false_r in E. discriminate. }
  rewrite T. cbn [negb]. rewrite orb_false_r.
  rewrite is_cli_banner_past.
  - intros B. rewrite B. reflexivity.
  - apply Forall_app. split; [exact HU | repeat constructor].
Qed.

End Prefix.

(** ** The preamble *)

Section Preamble.

Lemma preamble_cons (l : str) (p : list str) (x : str) :
  preamble (l :: p) ++ x = l ++ NL :: (preamble p ++ x).
Proof.
  unfold preamble. cbn [flat_map]. rewrite <- !app_assoc. reflexivity.
Qed.

Lemma no_newline_suffix (U l : str) : no_newline (U ++ l) -> no_newline l.
Proof. intros H. apply Forall_app in H. tauto. Qed.

(** Removing the line numbers of a text that starts with banner noise
    leaves banner noise in front of the rest without its line numbers. *)
Lemma remove_line_numbers_preamble (x : str) (p : list str) :
  Forall no_newline p ->
  Forall (fun l => banner_noise l = true) p ->
  exists q,
    Forall no_newline q
    /\ Forall (fun l => banner_noise l = true) q
    /\ remove_line_numbers (preamble p ++ x)
       = preamble q ++ remove_line_numbers x.
Proof.
  intros HL HN. induction HL as [|l p Hl _ IH].
  - exists []. repeat split; constructor.
  - inversion HN as [|? ? Nl Np]; subst.
    destruct (IH Np) as [q [Lq [Nq E]]]. clear IH.
    rewrite preamble_cons. set (T := preamble p ++ x) in *.
    destruct (line_number_match true (l ++ NL :: T)) as [n|] eqn:M.
    + destruct (forallb isspace l) eqn:B.
      * (* the match runs over the whole blank line *)
        rewrite (@line_number_match_blank l T B) in M.
        destruct (line_number_match true T) as [k|] eqn:MT; [|discriminate].
        cbn [option_map] in M.
        destruct (@line_number_match_shape T k MT) as [U [rest [ET [Ek HU]]]].
        exists q. split; [exact Lq|]. split; [exact Nq|].
        rewrite <- E.
        assert (ES : l ++ NL :: T = ((l ++ NL :: U) ++ [ARROW]) ++ rest).
        { rewrite ET, <- !app_assoc. reflexivity. }
        assert (MS : line_number_match true (l ++ NL :: T)
                     = Some (length (l ++ NL :: U) + 1)).
        { rewrite (@line_number_match_blank l T B), MT. cbn [option_map].
          f_equal. rewrite length_app. cbn [length]. lia. }
        rewrite ES in MS |- *. rewrite (@remove_match _ _ MS).
        rewrite ET. rewrite ET, Ek in MT.
        rewrite (@remove_match _ _ MT). reflexivity.
      * (* the match ends in the line *)
        rewrite (@line_number_match_text l T B) in M.
        destruct (@line_number_match_shape l n M) as [U [l2 [El [En HU]]]].
        assert (L2 : no_newline l2) by (rewrite El in Hl;
                                        apply (@no_newline_suffix _ _ Hl)).
        exists (l2 :: q). split; [constructor; assumption|].
        split.
        -- constructor; [|exact Nq]. rewrite El in Nl.
           apply (@banner_noise_suffix U l2 HU Nl).
        -- assert (MS : line_number_match true (l ++ NL :: T)
                        = Some (length U + 1)).
           { rewrite (@line_number_match_text l T B), M, En. reflexivity. }
           assert (ES : l ++ NL :: T = (U ++ [ARROW]) ++ (l2 ++ NL :: T)).
           { rewrite El, <- !app_assoc. reflexivity. }
           rewrite ES in MS |- *. rewrite (@remove_match _ _ MS).
           rewrite (@copy_line l2 T L2), E, preamble_cons. reflexivity.
    + exists (l :: q). split; [constructor; assumption|].
      split; [constructor; assumption|].
      rewrite (@copy_first_line l T Hl M), E, preamble_cons. reflexivity.
Qed.

Lemma split_preamble (q : list str) (y : str) :
  Forall no_newline q -> split NL (preamble q ++ y) = q ++ split NL y.
Proof.
  induction 1 as [|l q Hl _ IH]; [reflexivity|].
  rewrite preamble_cons, split_app_newline, (@split_no_newline l Hl), IH.
  reflexivity.
Qed.

(** While the banner is skipped, a line of banner noise changes nothing. *)
Lemma step_banner_noise (st : pstate) (l : str) :
  skip_banner st = true -> banner_noise l = true -> step st l = st.
Proof.
  unfold banner_noise, step. intros S B. cbv zeta. rewrite S, B. reflexivity.
Qed.

Lemma skip_banner_noise (q : list str) :
  Forall (fun l => banner_noise l = true) q ->
  fold_left step q initial = initial.
Proof.
  induction 1 as [|l q Hl _ IH]; [reflexivity|].
  cbn [fold_left]. rewrite (@step_banner_noise initial l eq_refl Hl). exact IH.
Qed.

(** C4: lines of pure banner noise in front of an input change nothing
    of what [parse_export] returns: the same turns, with the same
    speakers and contents. *)
Theorem preamble_never_leaks (x : str) (p : list str) :
  Forall no_newline p ->
  Forall (fun l => banner_noise l = true) p ->
  parse_export (preamble p ++ x) = parse_export x.
Proof.
  intros HL HN.
  destruct (@remove_line_numbers_preamble x p HL HN) as [q [Lq [Nq E]]].
  unfold parse_export, parse_lines. cbv zeta.
  rewrite E, (@split_preamble q _ Lq), fold_left_app, (@skip_banner_noise q Nq).
  reflexivity.
Qed.

Lemma preamble_never_leaks_witness :
  Forall no_newline banner_lines
  /\ Forall (fun l => banner_noise l = true) banner_lines
  /\ parse_export (preamble banner_lines ++ u "7→❯ hello")
     = [Turn user (u "hello")].
Proof.
  assert (L : Forall no_newline banner_lines).
  { unfold banner_lines. repeat constructor; discriminate. }
  assert (B : Forall (fun l => banner_noise l = true) banner_lines).
  { unfold banner_lines. repeat (constructor; [vm_compute; reflexivity|]).
    constructor. }
  split; [exact L|]. split; [exact B|].
  rewrite (@preamble_never_leaks (u "7→❯ hello") banner_lines L B).
  vm_compute. reflexivity.
Defined.

End Preamble.

(** * Further properties of the code *)

(** ** The cleaner, further *)

Section CleanerMore.

Lemma rstrip_last (s a : str) (c : N) :
  rstrip s = a ++ [c] -> isspace c = false.
Proof.
  revert a. induction s as [|x s IH]; intros a.
  - destruct a; discriminate.
  - rewrite rstrip_cons. destruct (forallb isspace (x :: s)) eqn:F.
    + destruct a; discriminate.
    + destruct a as [|y a]; cbn [app]; intros E; inversion E; subst.
      * destruct (isspace c) eqn:S; [|reflexivity].
        cbn [forallb] in F. rewrite S in F. cbn [andb] in F.
        match goal with H : rstrip s = [] |- _ =>
          apply rstrip_nil_iff in H; congruence end.
      * match goal with H : rstrip s = a ++ [c] |- _ =>
          exact (IH a H) end.
Qed.

(** X1: what [clean_line] returns holds no box-drawing character, no
    marker, footer or thinking glyph and no ellipsis character; so the
    marker test on a cleaned line always fails (the loop tests the raw
    line). *)
Theorem clean_line_removes_artifacts (x : str) :
  Forall (fun c => is_artifact c = false) (clean_line x)
  /\ has_claude_marker (clean_line x) = false.
Proof.
  pose proof (clean_line_plain x) as P. split; [exact P|].
  unfold has_claude_marker.
  destruct (existsb (N.eqb MARKER) (clean_line x)) eqn:E; [|reflexivity].
  apply existsb_exists in E. destruct E as [c [Hc E]].
  apply N.eqb_eq in E. subst c.
  unfold plain in P. rewrite Forall_forall in P. apply P in Hc.
  discriminate.
Qed.

(** X2: on a line without escape character and without artifacts,
    [clean_line] removes the trailing whitespace and nothing else: the
    indentation is kept. *)
Theorem clean_line_keeps_plain_text (x : str) :
  Forall (fun c => c <> ESC) x ->
  Forall (fun c => is_artifact c = false) x ->
  clean_line x = rstrip x.
Proof.
  intros E P. unfold clean_line.
  rewrite (remove_ansi_codes_no_escape E), (plain_fixed P). reflexivity.
Qed.

Lemma clean_line_keeps_plain_text_witness :
  clean_line indented_text = u "    return x".
Proof.
  rewrite (@clean_line_keeps_plain_text indented_text).
  - vm_compute. reflexivity.
  - unfold indented_text. repeat constructor; discriminate.
  - unfold indented_text. repeat constructor.
Defined.

(** X3: a cleaned line never ends with a whitespace character. *)
Theorem clean_line_no_trailing_space (x a : str) (c : N) :
  clean_line x = a ++ [c] -> isspace c = false.
Proof. unfold clean_line. apply rstrip_last. Qed.

Lemma clean_line_no_trailing_space_witness :
  isspace 120%N = false.
Proof.
  apply (@clean_line_no_trailing_space indented_text (u "    return ") 120%N).
  vm_compute. reflexivity.
Defined.

End CleanerMore.

(** ** Line numbers, further *)

Section NumberedLines.

Lemma isdecimal_spec (c : N) :
  isdecimal c = true ->
  exists lo, In lo decimal_runs /\ (lo <= c < lo + 10)%N.
Proof.
  unfold isdecimal. intros H. apply existsb_exists in H.
  destruct H as [lo [Hin H]]. exists lo. split; [exact Hin|].
  apply andb_prop in H. destruct H as [A B].
  apply N.leb_le in A. apply N.ltb_lt in B. lia.
Qed.

Lemma decimal_not_space (c : N) : isdecimal c = true -> isspace c = false.
Proof.
  intros D. destruct (isspace c) eqn:S; [|reflexivity]. exfalso.
  apply isspace_spec in S. apply isdecimal_spec in D.
  destruct D as [lo [Hin R]]. unfold decimal_runs in Hin. cbn [In] in Hin.
  repeat (destruct Hin as [Hin|Hin]; [subst lo; lia|]). exact Hin.
Qed.

Lemma span_len_exact (p : N -> bool) (l s : str) :
  forallb p l = true ->
  match s with [] => True | c :: _ => p c = false end ->
  span_len p (l ++ s) = length l.
Proof.
  intros H Hs. rewrite span_len_all by exact H.
  destruct s as [|c s]; cbn [span_len]; [lia|]. rewrite Hs. lia.
Qed.

(** The pattern matches a line-number prefix, whatever follows. *)
Lemma line_number_match_prefix (W D rest : str) :
  forallb isspace W = true -> forallb isdecimal D = true -> D <> [] ->
  line_number_match true ((W ++ D ++ [ARROW]) ++ rest)
  = Some (length (W ++ D) + 1).
Proof.
  intros HW HD Hne. unfold line_number_match.
  rewrite <- !app_assoc.
  assert (Hd : match D ++ [ARROW] ++ rest with
               | [] => True
               | c :: _ => isspace c = false
               end).
  { destruct D as [|d D]; [contradiction|]. cbn [app].
    apply decimal_not_space. cbn [forallb] in HD.
    apply andb_prop in HD. tauto. }
  rewrite (@span_len_exact isspace W (D ++ [ARROW] ++ rest) HW Hd).
  rewrite skipn_length_app.
  rewrite (@span_len_exact isdecimal D ([ARROW] ++ rest) HD eq_refl).
  destruct (length D) as [|n] eqn:L.
  - destruct D; [contradiction | discriminate].
  - rewrite <- L, skipn_length_app. cbn [app].
    change (ARROW =? ARROW)%N with true. cbv iota. f_equal.
    rewrite length_app. lia.
Qed.

Lemma copy_last_line (l : str) :
  no_newline l -> sub_delete line_number_match 0 false l = l.
Proof.
  induction 1 as [|c l Hc _ IH]; [reflexivity|].
  cbn [sub_delete line_number_match].
  apply N.eqb_neq in Hc. rewrite Hc, IH. reflexivity.
Qed.

Lemma remove_numbered (lns : list numbered_line) :
  Forall numbered_ok lns ->
  remove_line_numbers (join [NL] (List.map with_number lns))
  = join [NL] (List.map text lns).
Proof.
  induction 1 as [|ln lns [HW [HD [Hne Ht]]] Hrest IH]; [reflexivity|].
  assert (M : forall rest,
             remove_line_numbers (with_number ln ++ rest)
             = sub_delete line_number_match 0 false (text ln ++ rest)).
  { intros rest. unfold with_number.
    replace ((pad ln ++ num ln ++ [ARROW] ++ text ln) ++ rest)
      with (((pad ln ++ num ln) ++ [ARROW]) ++ (text ln ++ rest))
      by (rewrite <- !app_assoc; reflexivity).
    apply remove_match.
    replace ((pad ln ++ num ln) ++ [ARROW])
      with (pad ln ++ num ln ++ [ARROW])
      by (rewrite app_assoc; reflexivity).
    apply line_number_match_prefix; assumption. }
  destruct lns as [|ln' lns].
  - cbn [List.map join]. rewrite <- (app_nil_r (with_number ln)), M.
    rewrite app_nil_r. apply copy_last_line. exact Ht.
  - cbn [List.map] in *. rewrite !join_cons by discriminate.
    rewrite M, (@copy_line (text ln) _ Ht), IH. reflexivity.
Qed.

(** X4: a text whose lines all carry a line number (whitespace, digits,
    the arrow) gets back the lines without their numbers; what follows
    the first arrow of a line is kept as it is. *)
Theorem remove_line_numbers_strips_every_line (lns : list numbered_line) :
  Forall numbered_ok lns ->
  remove_line_numbers (join [NL] (List.map with_number lns))
  = join [NL] (List.map text lns).
Proof. apply remove_numbered. Qed.

Lemma remove_line_numbers_strips_every_line_witness :
  remove_line_numbers (join [NL] (List.map with_number numbered_sample))
  = join [NL] [u "❯ hello"; []; u "  7→ kept"].
Proof.
  rewrite (@remove_line_numbers_strips_every_line numbered_sample).
  - vm_compute. reflexivity.
  - unfold numbered_sample, numbered_ok, no_newline.
    repeat constructor; cbn; try discriminate; reflexivity.
Defined.

Lemma no_arrow_no_match (bol : bool) (s : str) :
  Forall (fun c => c <> ARROW) s -> line_number_match bol s = None.
Proof.
  intros H. destruct bol; [|reflexivity].
  destruct (line_number_match true s) as [n|] eqn:M; [|reflexivity].
  apply line_number_match_shape in M. destruct M as [U [rest [E _]]].
  rewrite E in H. apply Forall_app in H. destruct H as [H _].
  apply Forall_app in H. destruct H as [_ H]. inversion H; congruence.
Qed.

(** X5: a text without the arrow character has no line numbers to
    remove and is returned as it is. *)
Theorem remove_line_numbers_without_arrow (s : str) :
  Forall (fun c => c <> ARROW) s -> remove_line_numbers s = s.
Proof.
  unfold remove_line_numbers. generalize true.
  induction s as [|c s IH]; intros bol H; [reflexivity|].
  cbn [sub_delete]. rewrite (no_arrow_no_match bol H).
  inversion H; subst. f_equal. apply IH. assumption.
Qed.

Lemma remove_line_numbers_without_arrow_witness :
  remove_line_numbers hello_export = hello_export.
Proof.
  apply (@remove_line_numbers_without_arrow hello_export).
  unfold hello_export. repeat constructor; discriminate.
Defined.

End NumberedLines.

(** ** The segmenter, further *)

Section Infix.

Lemma startswith_app (x p b : str) :
  startswith x p = true -> startswith (x ++ b) p = true.
Proof.
  revert p. induction x as [|c x IH]; intros [|a p] H; cbn in *;
    try reflexivity; try discriminate; try (destruct b; reflexivity).
  apply andb_prop in H. destruct H as [E H].
  rewrite E. cbn. apply IH. exact H.
Qed.

Lemma startswith_length (x p : str) :
  startswith x p = true -> length p <= length x.
Proof.
  revert p. induction x as [|c x IH]; intros [|a p] H; cbn in *; try lia;
    try discriminate.
  apply andb_prop in H. destruct H as [_ H].
  apply IH in H. lia.
Qed.

Lemma contains_app (n x b : str) :
  contains n x = true -> contains n (x ++ b) = true.
Proof.
  induction x as [|c x IH]; cbn [contains app].
  - rewrite orb_false_r. intros H.
    destruct n; [|discriminate]. destruct b; reflexivity.
  - intros H. apply orb_prop in H. destruct H as [H|H].
    + pose proof (@startswith_app (c :: x) n b H) as S.
      cbn [app] in S. rewrite S. reflexivity.
    + rewrite (IH H). apply orb_true_r.
Qed.

Lemma contains_prefix (n a x : str) :
  contains n x = true -> contains n (a ++ x) = true.
Proof.
  intros H. induction a as [|c a IH]; [exact H|].
  cbn [app contains]. rewrite IH. apply orb_true_r.
Qed.

Lemma contains_infix (n a x b : str) :
  contains n x = true -> contains n (a ++ x ++ b) = true.
Proof. intros H. apply contains_prefix, contains_app, H. Qed.

Lemma timing_here_app (x b : str) :
  timing_here x = true -> timing_here (x ++ b) = true.
Proof.
  unfold timing_here. intros H. apply andb_prop in H. destruct H as [St H].
  rewrite (@startswith_app x SAUTEED b St). cbn [andb].
  pose proof (@startswith_length x SAUTEED St) as L.
  rewrite skipn_inside by exact L.
  set (r := skipn (length SAUTEED) x) in *.
  destruct (span_len isdecimal r) as [|d] eqn:D; [discriminate|].
  destruct (skipn (S d) r) as [|c t] eqn:K; [discriminate|].
  assert (F : forallb isdecimal r = false).
  { destruct (forallb isdecimal r) eqn:F; [|reflexivity].
    pose proof (@span_len_all isdecimal r [] F) as X.
    rewrite app_nil_r in X. change (span_len isdecimal []) with 0 in X.
    rewrite D, Nat.add_0_r in X. rewrite X, skipn_all in K.
    discriminate. }
  destruct (@span_len_stop isdecimal r b F) as [E L'].
  rewrite E, D. rewrite skipn_inside by lia. rewrite K. exact H.
Qed.

Lemma is_timing_line_app (t b : str) :
  is_timing_line t = true -> is_timing_line (t ++ b) = true.
Proof.
  induction t as [|c t IH]; cbn [is_timing_line app].
  - rewrite orb_false_r. intros H. discriminate H.
  - intros H. apply orb_prop in H. destruct H as [H|H].
    + pose proof (@timing_here_app (c :: t) b H) as S.
      cbn [app] in S. rewrite S. reflexivity.
    + apply andb_prop in H. destruct H as [N H].
      rewrite N, (IH H). apply orb_true_r.
Qed.

Lemma is_timing_line_prefix (a t : str) :
  no_newline a -> is_timing_line t = true -> is_timing_line (a ++ t) = true.
Proof.
  intros Ha H. induction Ha as [|c a Hc _ IH]; [exact H|].
  cbn [app is_timing_line]. apply N.eqb_neq in Hc.
  rewrite Hc, IH. apply orb_true_r.
Qed.

Lemma dropwhile_suffix (p : N -> bool) (s : str) :
  exists a, s = a ++ dropwhile p s.
Proof.
  induction s as [|c s [a E]]; [exists []; reflexivity|].
  cbn [dropwhile]. destruct (p c).
  - exists (c :: a). cbn. f_equal. exact E.
  - exists []. reflexivity.
Qed.

Lemma strip_infix (s : str) : exists a b, s = a ++ strip s ++ b.
Proof.
  destruct (dropwhile_suffix isspace s) as [a E].
  destruct (rstrip_split (lstrip s)) as [b [F _]].
  exists a, b. unfold strip. rewrite <- F. exact E.
Qed.

Lemma strip_prompt_suffix (s : str) : exists a, s = a ++ strip_prompt s.
Proof.
  unfold strip_prompt. destruct s as [|c s]; [exists []; reflexivity|].
  destruct (c =? PROMPT)%N; [|exists []; reflexivity].
  destruct (dropwhile_suffix isspace s) as [a E].
  exists (c :: a). cbn. f_equal. exact E.
Qed.

(** The text of a prompt is a part of its cleaned line. *)
Lemma prompt_text_infix (c : str) :
  exists a b, c = a ++ strip_prompt (strip c) ++ b.
Proof.
  destruct (strip_infix c) as [a [b E]].
  destruct (strip_prompt_suffix (strip c)) as [a' E'].
  exists (a ++ a'), b. rewrite <- app_assoc.
  rewrite (app_assoc a'), <- E'. exact E.
Qed.

Lemma prompt_text_not_timing (c : str) :
  no_newline c -> is_timing_line c = false ->
  is_timing_line (strip_prompt (strip c)) = false.
Proof.
  intros N T. destruct (prompt_text_infix c) as [a [b E]].
  destruct (is_timing_line (strip_prompt (strip c))) eqn:H; [|reflexivity].
  rewrite E in N, T. apply Forall_app in N. destruct N as [Na _].
  rewrite (@is_timing_line_prefix a _ Na (@is_timing_line_app _ b H)) in T.
  discriminate.
Qed.

Lemma prompt_text_not_response (c : str) :
  is_system_response c = false ->
  is_system_response (strip_prompt (strip c)) = false.
Proof.
  unfold is_system_response. intros R.
  destruct (strip_prompt_suffix (strip c)) as [a E].
  destruct (strip_infix (strip_prompt (strip c))) as [a' [b' E']].
  induction system_responses as [|resp rs IH]; [reflexivity|].
  cbn [existsb] in *. apply orb_false_elim in R. destruct R as [R1 R2].
  rewrite (IH R2), orb_false_r.
  destruct (contains resp (strip (strip_prompt (strip c)))) eqn:H;
    [|reflexivity].
  rewrite E, E' in R1.
  rewrite (@contains_prefix resp a _ (@contains_infix resp a' _ b' H)) in R1.
  discriminate.
Qed.

End Infix.

Section ContentInvariant.

(** A property of lines that every accepted cleaned line has and that the
    text of a prompt inherits from its line holds of every collected
    line. *)
Variable Q : str -> Prop.
Hypothesis Q_line :
  forall l, no_newline l -> accepted (clean_line l) -> Q (clean_line l).
Hypothesis Q_prompt :
  forall c, no_newline c -> accepted c -> Q c -> Q (strip_prompt (strip c)).

Let joined (t : turn) : Prop :=
  exists ls, ls <> [] /\ Forall Q ls /\ content t = join [NL] ls.

Lemma save_turn_joined (T : list turn) (c : option speaker) (ls : list str)
      (b : bool) :
  Forall joined T -> Forall Q ls -> Forall joined (save_turn (PState T c ls b)).
Proof.
  intros HT HL. unfold save_turn. cbn [current_turn current_content turns].
  destruct c as [s|]; [|exact HT].
  destruct ls as [|l ls]; [exact HT|]. cbn [truthy].
  apply Forall_app. split; [exact HT|]. constructor; [|constructor].
  exists (l :: ls). split; [discriminate|]. split; [exact HL | reflexivity].
Qed.

Lemma step_joined (st : pstate) (l : str) :
  no_newline l ->
  Forall joined (turns st) /\ Forall Q (current_content st) ->
  Forall joined (turns (step st l)) /\ Forall Q (current_content (step st l)).
Proof.
  intros Hl [HT HC].
  pose proof (clean_line_no_newline Hl) as Hn.
  assert (HQ : is_timing_line (clean_line l) = false ->
               is_system_response (clean_line l) = false ->
               Q (clean_line l)).
  { intros A B. apply Q_line; [exact Hl | split; assumption]. }
  assert (HP : is_timing_line (clean_line l) = false ->
               is_system_response (clean_line l) = false ->
               Q (strip_prompt (strip (clean_line l)))).
  { intros A B. apply Q_prompt; [exact Hn | split; assumption | auto]. }
  assert (HS : forall c b, Forall joined
                 (save_turn (PState (turns st) c (current_content st) b)))
    by (intros; apply save_turn_joined; assumption).
  unfold step. cbv zeta.
  repeat match goal with
         | |- context [if ?b then _ else _] => destruct b eqn:?
         end;
    cbn [turns current_content]; split;
    try assumption; try apply HS;
    try (apply Forall_app; split; [assumption|]);
    repeat constructor; auto.
Qed.

Lemma run_joined (lines : list str) :
  Forall no_newline lines ->
  forall st,
    Forall joined (turns st) /\ Forall Q (current_content st) ->
    Forall joined (turns (fold_left step lines st))
    /\ Forall Q (current_content (fold_left step lines st)).
Proof.
  induction 1 as [|l lines Hl _ IH]; intros st H; [exact H|].
  cbn [fold_left]. apply IH. apply step_joined; assumption.
Qed.

Lemma parse_export_joined (text : str) (t : turn) :
  In t (parse_export text) ->
  exists ls, ls <> [] /\ Forall Q ls /\ content t = join [NL] ls.
Proof.
  unfold parse_export, parse_lines. cbv zeta. intros H.
  destruct (@run_joined (split NL (remove_line_numbers text))
              (split_lines _) initial) as [HT HC].
  { split; constructor. }
  set (st := fold_left step _ initial) in *.
  assert (F : Forall joined (save_turn st)).
  { rewrite <- (pstate_eta st). apply save_turn_joined; assumption. }
  rewrite Forall_forall in F. exact (F t H).
Qed.

End ContentInvariant.

Section SegmenterMore.

Lemma step_before_prompt (l : str) :
  is_user_prompt (clean_line l) = false -> step initial l = initial.
Proof.
  intros U. unfold step. cbv zeta. cbn [skip_banner initial].
  rewrite U. destruct (is_cli_banner _ || _); reflexivity.
Qed.

(** X6: an input without any user-prompt line yields no turn at all:
    whatever comes before the first prompt is skipped as banner. *)
Theorem no_prompt_no_turns (text : str) :
  Forall (fun l => is_user_prompt (clean_line l) = false)
         (split NL (remove_line_numbers text)) ->
  parse_export text = [].
Proof.
  unfold parse_export, parse_lines. cbv zeta.
  induction 1 as [|l ls Hl _ IH]; [reflexivity|].
  cbn [fold_left]. rewrite (step_before_prompt l Hl). exact IH.
Qed.

Lemma no_prompt_no_turns_witness : parse_export banner_only_export = [].
Proof.
  apply (@no_prompt_no_turns banner_only_export).
  vm_compute. repeat constructor.
Defined.

Lemma save_turn_length (st : pstate) :
  length (save_turn st) <= length (turns st) + length (current_content st)
  /\ length (save_turn st) <= S (length (turns st)).
Proof.
  unfold save_turn. destruct (current_turn st); [|lia].
  destruct (current_content st); cbn [truthy length]; [lia|].
  rewrite length_app. cbn [length]. lia.
Qed.

Lemma step_measure (st : pstate) (l : str) :
  length (turns (step st l)) + length (current_content (step st l))
  <= S (length (turns st) + length (current_content st)).
Proof.
  pose proof (save_turn_length st) as [A B].
  assert (E : forall b, save_turn (PState (turns st) (current_turn st)
                                          (current_content st) b)
                        = save_turn st) by reflexivity.
  unfold step. cbv zeta.
  repeat match goal with
         | |- context [if ?b then _ else _] => destruct b eqn:?
         end;
    cbn [turns current_content]; rewrite ?E, ?length_app; cbn [length];
    lia.
Qed.

Lemma run_measure (lines : list str) :
  forall st,
    length (turns (fold_left step lines st))
    + length (current_content (fold_left step lines st))
    <= length lines + (length (turns st) + length (current_content st)).
Proof.
  induction lines as [|l lines IH]; intros st; cbn [fold_left length]; [lia|].
  specialize (IH (step st l)). pose proof (step_measure st l). lia.
Qed.

(** X7: [parse_export] never returns more turns than the input has
    lines. *)
Theorem turns_bounded_by_lines (text : str) :
  length (parse_export text) <= length (split NL (remove_line_numbers text)).
Proof.
  unfold parse_export, parse_lines. cbv zeta.
  set (lines := split NL (remove_line_numbers text)).
  pose proof (run_measure lines initial) as M.
  pose proof (save_turn_length (fold_left step lines initial)) as [A _].
  cbn [initial turns current_content length] in M. lia.
Qed.

Lemma accepted_line (l : str) :
  no_newline l -> accepted (clean_line l) ->
  no_newline (clean_line l) /\ accepted (clean_line l).
Proof. intros N A. split; [apply clean_line_no_newline; exact N | exact A]. Qed.

Lemma accepted_prompt (c : str) :
  no_newline c -> accepted c -> no_newline c /\ accepted c ->
  no_newline (strip_prompt (strip c)) /\ accepted (strip_prompt (strip c)).
Proof.
  intros N [T R] _. split; [|split].
  - destruct (prompt_text_infix c) as [a [b E]]. rewrite E in N.
    apply Forall_app in N. destruct N as [_ N].
    apply Forall_app in N. tauto.
  - apply prompt_text_not_timing; assumption.
  - apply prompt_text_not_response; assumption.
Qed.

(** X8: no line of the content of an emitted turn is a timing line or a
    system response: those lines are dropped wherever they stand. *)
Theorem timing_and_echo_never_emitted (text : str) (t : turn) :
  In t (parse_export text) ->
  Forall accepted (split NL (content t)).
Proof.
  intros H.
  destruct (@parse_export_joined (fun c => no_newline c /\ accepted c)
              accepted_line accepted_prompt text t H) as [ls [Hne [F E]]].
  rewrite E, split_join_lines.
  - eapply Forall_impl; [|exact F]. intros c Hc. apply Hc.
  - exact Hne.
  - eapply Forall_impl; [|exact F]. intros c Hc. apply Hc.
Qed.

Lemma timing_and_echo_never_emitted_witness :
  Forall accepted (split NL (join [NL] [u "  Done..."; u "   ok"])).
Proof.
  apply (@timing_and_echo_never_emitted noisy_export
           (Turn claude (join [NL] [u "  Done..."; u "   ok"]))).
  vm_compute. right. left. reflexivity.
Defined.

Lemma join_Forall (P : N -> Prop) (ls : list str) :
  P NL -> Forall (Forall P) ls -> Forall P (join [NL] ls).
Proof.
  intros HN. induction 1 as [|l ls Hl Hls IH]; [constructor|].
  destruct ls as [|l' ls]; [exact Hl|].
  rewrite join_cons by discriminate.
  apply Forall_app. split; [exact Hl|]. constructor; [exact HN | exact IH].
Qed.

Lemma plain_prompt (c : str) :
  no_newline c -> accepted c -> plain c -> plain (strip_prompt (strip c)).
Proof.
  intros _ _ P. destruct (prompt_text_infix c) as [a [b E]].
  unfold plain in *. rewrite E in P.
  apply Forall_app in P. destruct P as [_ P].
  apply Forall_app in P. tauto.
Qed.

(** X9: the content of every emitted turn is free of the characters the
    cleaner removes: no box-drawing character, marker, footer, thinking
    glyph or ellipsis character reaches the output of [parse_export]. *)
Theorem emitted_content_is_clean (text : str) (t : turn) :
  In t (parse_export text) ->
  Forall (fun c => is_artifact c = false) (content t).
Proof.
  intros H.
  destruct (@parse_export_joined plain
              (fun l _ _ => clean_line_plain l) plain_prompt text t H)
    as [ls [_ [F E]]].
  rewrite E. apply join_Forall; [reflexivity | exact F].
Qed.

Lemma emitted_content_is_clean_witness :
  Forall (fun c => is_artifact c = false)
         (join [NL] [u "  Done..."; u "   ok"]).
Proof.
  apply (@emitted_content_is_clean noisy_export
           (Turn claude (join [NL] [u "  Done..."; u "   ok"]))).
  vm_compute. right. left. reflexivity.
Defined.

End SegmenterMore.

(** ** Whole transcripts *)

Section Transcript.

Lemma user_prompt_nonblank (c : str) :
  is_user_prompt c = true -> truthy (strip c) = true.
Proof.
  unfold is_user_prompt. destruct (strip c); [discriminate | reflexivity].
Qed.

Lemma step_prompt_start (st : pstate) (l : str) :
  skip_banner st = false \/ is_cli_banner (clean_line l) = false ->
  is_user_prompt (clean_line l) = true ->
  accepted (clean_line l) ->
  is_system_command (prompt_text l) = false ->
  step st l
  = PState (save_turn st) (Some user)
           (if truthy (prompt_text l) then [prompt_text l] else []) false.
Proof.
  intros B U [T R] C. unfold step, prompt_text in *. cbv zeta.
  rewrite U, T, R, C, (user_prompt_nonblank _ U).
  destruct (skip_banner st) eqn:S.
  - destruct B as [B|B]; [discriminate|]. rewrite B. reflexivity.
  - rewrite <- S at 1. rewrite pstate_eta.
    destruct (truthy _); reflexivity.
Qed.

Lemma step_user_more (T : list turn) (c : list str) (l : str) :
  plain_line l -> has_claude_marker l = false ->
  step (PState T (Some user) c false) l
  = PState T (Some user) (c ++ [clean_line l]) false.
Proof.
  intros [A [B C]] M. unfold step. cbv zeta.
  cbn [skip_banner current_turn turns current_content].
  rewrite A, B, C, M. reflexivity.
Qed.

Lemma step_claude_more (T : list turn) (c : list str) (l : str) :
  plain_line l ->
  step (PState T (Some claude) c false) l
  = PState T (Some claude) (c ++ [clean_line l]) false.
Proof.
  intros [A [B C]]. unfold step. cbv zeta.
  cbn [skip_banner current_turn turns current_content].
  rewrite A, B, C. destruct (has_claude_marker l); reflexivity.
Qed.

Lemma run_user_more (ls : list str) :
  Forall (fun l => plain_line l /\ has_claude_marker l = false) ls ->
  forall T c,
    fold_left step ls (PState T (Some user) c false)
    = PState T (Some user) (c ++ List.map clean_line ls) false.
Proof.
  induction 1 as [|l ls [P M] _ IH]; intros T c; cbn [fold_left List.map].
  - rewrite app_nil_r. reflexivity.
  - rewrite (step_user_more T c P M), IH, <- app_assoc. reflexivity.
Qed.

Lemma run_claude_more (ls : list str) :
  Forall plain_line ls ->
  forall T c,
    fold_left step ls (PState T (Some claude) c false)
    = PState T (Some claude) (c ++ List.map clean_line ls) false.
Proof.
  induction 1 as [|l ls P _ IH]; intros T c; cbn [fold_left List.map].
  - rewrite app_nil_r. reflexivity.
  - rewrite (step_claude_more T c P), IH, <- app_assoc. reflexivity.
Qed.

Lemma run_exchange (e : exchange) (st : pstate) :
  exchange_ok e ->
  skip_banner st = false \/ is_cli_banner (clean_line (ask e)) = false ->
  fold_left step (exchange_lines e) st
  = PState (save_turn st ++ [hd (Turn user []) (exchange_turns e)])
           (Some claude)
           (List.map clean_line (answer e :: answer_more e)) false.
Proof.
  intros [U [A [C [N [Hm [M [P [B Ha]]]]]]]] S.
  unfold exchange_lines. cbn [fold_left].
  rewrite (step_prompt_start st (ask e) S U A C), N.
  rewrite fold_left_app. rewrite (run_user_more Hm). cbn [fold_left].
  rewrite step_marker_start; [|reflexivity|exact P|exact M|reflexivity].
  rewrite B. rewrite (run_claude_more Ha). reflexivity.
Qed.

Lemma run_transcript (conv : list exchange) :
  Forall exchange_ok conv ->
  forall st,
    skip_banner st = false
    \/ match conv with
       | [] => True
       | e :: _ => is_cli_banner (clean_line (ask e)) = false
       end ->
    save_turn (fold_left step (flat_map exchange_lines conv) st)
    = save_turn st ++ flat_map exchange_turns conv.
Proof.
  induction 1 as [|e conv He _ IH]; intros st S.
  - cbn. rewrite app_nil_r. reflexivity.
  - cbn [flat_map]. rewrite fold_left_app.
    rewrite (run_exchange st He S).
    rewrite IH by (left; reflexivity).
    unfold save_turn at 1. cbn [current_turn current_content turns List.map].
    cbn [truthy exchange_turns hd app].
    rewrite <- !app_assoc. reflexivity.
Qed.

(** X10: a transcript made of exchanges, each a prompt line whose text
    is neither empty nor a system command (with the lines that continue
    it, none with a marker) followed by a response that starts with a
    marker line whose cleaned text is not blank (with the lines that
    continue it), none of these lines discarded or read as a prompt and
    the first prompt not itself a banner line, is parsed into exactly one
    user turn and one assistant turn per exchange, in order, each holding
    its cleaned lines. *)
Theorem transcript_parses_by_exchange (text : str) (conv : list exchange) :
  split NL (remove_line_numbers text) = flat_map exchange_lines conv ->
  Forall exchange_ok conv ->
  match conv with
  | [] => True
  | e :: _ => is_cli_banner (clean_line (ask e)) = false
  end ->
  parse_export text = flat_map exchange_turns conv.
Proof.
  intros E H B. unfold parse_export, parse_lines. cbv zeta. rewrite E.
  rewrite (run_transcript H initial (or_intror B)). reflexivity.
Qed.

Lemma transcript_parses_by_exchange_witness :
  parse_export (join [NL] (flat_map exchange_lines sample_talk))
  = [Turn user (join [NL] [u "fix the bug"; u "  in parser.py"]);
     Turn claude (join [NL] [u " Looking..."; u "   Read 3 lines"; []]);
     Turn user (u "Welcome back to it");
     Turn claude (join [NL] [u " Done"; u " All tests pass"])].
Proof.
  rewrite (@transcript_parses_by_exchange
             (join [NL] (flat_map exchange_lines sample_talk)) sample_talk).
  - vm_compute. reflexivity.
  - vm_compute. reflexivity.
  - unfold sample_talk, exchange_ok, accepted, plain_line.
    repeat constructor; vm_compute; reflexivity.
  - vm_compute. reflexivity.
Defined.

End Transcript.

(** ** Blank lines *)

Section BlankLines.

Lemma blank_runs_mono (L : list str) :
  forall k k', k <= k' ->
    blank_runs_le2 k' L = true -> blank_runs_le2 k L = true.
Proof.
  induction L as [|l L IH]; intros k k' Hk; [reflexivity|].
  cbn [blank_runs_le2]. destruct (nonblank l); [auto|].
  intros H. apply andb_prop in H. destruct H as [A B].
  apply Nat.leb_le in A.
  rewrite (IH (S k) (S k')) by (lia || exact B).
  rewrite andb_true_r. apply Nat.leb_le. lia.
Qed.

Lemma collapse_loop_runs (lines : list str) :
  forall k, blank_runs_le2 k (collapse_loop lines k) = true.
Proof.
  induction lines as [|l lines IH]; intros k; [reflexivity|].
  cbn [collapse_loop]. fold (nonblank l).
  destruct (nonblank l) eqn:B; cbn [negb].
  - cbn [blank_runs_le2]. rewrite B. apply IH.
  - destruct (S k <=? 2) eqn:K.
    + cbn [blank_runs_le2]. change (nonblank []) with false. cbv iota.
      rewrite K. apply IH.
    + apply (@blank_runs_mono _ k (S k)); [lia | apply IH].
Qed.

Lemma collapse_loop_blank_empty (lines : list str) :
  forall k, Forall (fun l => nonblank l = false -> l = [])
                   (collapse_loop lines k).
Proof.
  induction lines as [|l lines IH]; intros k; [constructor|].
  cbn [collapse_loop]. fold (nonblank l).
  destruct (nonblank l) eqn:B; cbn [negb].
  - constructor; [congruence | apply IH].
  - destruct (S k <=? 2); [constructor; [reflexivity|]|]; apply IH.
Qed.

Lemma collapse_loop_not_nil (lines : list str) :
  lines <> [] -> collapse_loop lines 0 <> [].
Proof.
  destruct lines as [|l lines]; [contradiction|]. intros _.
  cbn [collapse_loop]. destruct (negb _); discriminate.
Qed.

Lemma collapse_whitespace_lines (text : str) :
  split NL (collapse_whitespace text)
  = collapse_loop (split NL (cap_newlines 0 text)) 0.
Proof.
  unfold collapse_whitespace. apply split_join_lines.
  - apply collapse_loop_not_nil, split_not_nil.
  - apply collapse_loop_lines, split_lines.
Qed.

Lemma three_blank_lines (L : list str) :
  forall k pre a b c post,
    blank_runs_le2 k L = true ->
    L = pre ++ a :: b :: c :: post ->
    nonblank a = false -> nonblank b = false -> nonblank c = true.
Proof.
  intros k pre. revert k L.
  induction pre as [|x pre IH]; intros k L a b c post H E A B; subst L.
  - cbn [app blank_runs_le2] in H. rewrite A, B in H.
    destruct (nonblank c); [reflexivity|].
    repeat (apply andb_prop in H; destruct H as [? H]).
    repeat match goal with X : (_ <=? _) = true |- _ =>
      apply Nat.leb_le in X end. lia.
  - cbn [app blank_runs_le2] in H. destruct (nonblank x).
    + exact (IH 0 _ a b c post H eq_refl A B).
    + apply andb_prop in H. destruct H as [_ H].
      exact (IH (S k) _ a b c post H eq_refl A B).
Qed.

(** X11: the text [collapse_whitespace] returns never has three blank
    lines in a row, and its blank lines are empty. *)
Theorem collapse_whitespace_at_most_two_blanks (text : str) :
  (forall pre a b c post,
      split NL (collapse_whitespace text) = pre ++ a :: b :: c :: post ->
      nonblank a = false -> nonblank b = false -> nonblank c = true)
  /\ Forall (fun l => nonblank l = false -> l = [])
            (split NL (collapse_whitespace text)).
Proof.
  rewrite collapse_whitespace_lines. split.
  - intros pre a b c post. apply (@three_blank_lines _ 0).
    apply collapse_loop_runs.
  - apply collapse_loop_blank_empty.
Qed.

Lemma collapse_whitespace_at_most_two_blanks_witness :
  split NL (collapse_whitespace spaced_out) = [u "a"; []; []; u "b"; []; []]
  /\ nonblank (u "b") = true.
Proof.
  split; [vm_compute; reflexivity|].
  apply (proj1 (collapse_whitespace_at_most_two_blanks spaced_out)
               [u "a"] [] [] (u "b") [[]; []]);
    vm_compute; reflexivity.
Defined.

Lemma filter_nonblank_truthy (L : list str) :
  filter nonblank (filter (@truthy N) L) = filter nonblank L.
Proof.
  induction L as [|l L IH]; [reflexivity|].
  cbn [filter]. destruct l as [|c l]; cbn [truthy]; [exact IH|].
  cbn [filter]. rewrite IH. reflexivity.
Qed.

Lemma split_hd_tl (s : str) :
  split NL s = hd [] (split NL s) :: tl (split NL s).
Proof.
  pose proof (split_not_nil s) as H.
  destruct (split NL s); [contradiction | reflexivity].
Qed.

(** Cutting the runs of newlines keeps the lines that are not empty, in
    their order. *)
Lemma cap_newlines_filter (s : str) :
  forall n, filter (@truthy N) (split NL (cap_newlines n s))
            = filter (@truthy N) (split NL s).
Proof.
  induction s as [|c s IH]; intros n; [reflexivity|].
  destruct (N.eq_dec c NL) as [E|E].
  - subst c. rewrite split_cons_newline. cbn [cap_newlines filter truthy].
    rewrite N.eqb_refl. destruct (n <? 3).
    + rewrite split_cons_newline. cbn [filter truthy]. apply IH.
    + apply IH.
  - assert (R : cap_newlines n (c :: s) = c :: cap_newlines 0 s).
    { cbn [cap_newlines]. apply N.eqb_neq in E. rewrite E. reflexivity. }
    rewrite R, !(split_cons_other _ E). cbn [filter truthy].
    rewrite (proj2 (proj2 (cap_newlines_lines s)) 0) by lia.
    f_equal. specialize (IH 0).
    rewrite (split_hd_tl (cap_newlines 0 s)), (split_hd_tl s) in IH.
    rewrite (proj2 (proj2 (cap_newlines_lines s)) 0) in IH by lia.
    cbn [filter] in IH. destruct (truthy (hd [] (split NL s))).
    + inversion IH. reflexivity.
    + exact IH.
Qed.

Lemma collapse_loop_filter (lines : list str) :
  forall k, filter nonblank (collapse_loop lines k) = filter nonblank lines.
Proof.
  induction lines as [|l lines IH]; intros k; [reflexivity|].
  cbn [collapse_loop filter]. fold (nonblank l).
  destruct (nonblank l) eqn:B; cbn [negb].
  - cbn [filter]. rewrite B, IH. reflexivity.
  - destruct (S k <=? 2); [cbn [filter]; change (nonblank []) with false|];
      apply IH.
Qed.

(** X12: [collapse_whitespace] keeps every line that is not blank, as it
    is and in its order; only blank lines are dropped or emptied. *)
Theorem collapse_whitespace_keeps_text (text : str) :
  filter nonblank (split NL (collapse_whitespace text))
  = filter nonblank (split NL text).
Proof.
  rewrite collapse_whitespace_lines, collapse_loop_filter.
  rewrite <- filter_nonblank_truthy, cap_newlines_filter.
  apply filter_nonblank_truthy.
Qed.

Lemma collapse_loop_fixed (L : list str) :
  forall k,
    blank_runs_le2 k L = true ->
    Forall (fun l => nonblank l = false -> l = []) L ->
    collapse_loop L k = L.
Proof.
  induction L as [|l L IH]; intros k R F; [reflexivity|].
  inversion F as [|? ? Fl FL]; subst.
  cbn [collapse_loop blank_runs_le2] in *. fold (nonblank l).
  destruct (nonblank l) eqn:B; cbn [negb].
  - f_equal. apply IH; assumption.
  - apply andb_prop in R. destruct R as [K R]. rewrite K.
    rewrite (Fl eq_refl). f_equal. apply IH; assumption.
Qed.

Lemma cap_newlines_line (l : str) :
  no_newline l -> forall r, cap_newlines r l = l.
Proof.
  induction 1 as [|c l Hc _ IH]; intros r; [reflexivity|].
  cbn [cap_newlines]. apply N.eqb_neq in Hc. rewrite Hc, IH. reflexivity.
Qed.

Lemma cap_newlines_after_text (l X : str) :
  no_newline l -> l <> [] ->
  forall r, cap_newlines r (l ++ NL :: X) = l ++ NL :: cap_newlines 1 X.
Proof.
  intros Hl Hne. destruct Hl as [|c l Hc Hl]; [contradiction|].
  clear Hne. intros r. cbn [app cap_newlines].
  apply N.eqb_neq in Hc. rewrite Hc. f_equal. clear Hc r.
  induction Hl as [|d l Hd _ IH]; cbn [app cap_newlines].
  - rewrite N.eqb_refl. reflexivity.
  - apply N.eqb_neq in Hd. rewrite Hd, IH. reflexivity.
Qed.

Lemma cap_newlines_fixed (L : list str) :
  forall k r,
    r <= k + 1 ->
    blank_runs_le2 k L = true ->
    Forall (fun l => nonblank l = false -> l = []) L ->
    Forall no_newline L ->
    cap_newlines r (join [NL] L) = join [NL] L.
Proof.
  induction L as [|l L IH]; intros k r Hr R F N; [reflexivity|].
  inversion F as [|? ? Fl FL]; subst. inversion N as [|? ? Nl NL']; subst.
  destruct L as [|l' L]; [apply cap_newlines_line; exact Nl|].
  rewrite join_cons by discriminate.
  cbn [blank_runs_le2] in R. destruct (nonblank l) eqn:B.
  - rewrite cap_newlines_after_text;
      [|exact Nl|intros E; subst l; discriminate B].
    rewrite (IH 0 1); [reflexivity | lia | exact R | exact FL | exact NL'].
  - apply andb_prop in R. destruct R as [K R]. apply Nat.leb_le in K.
    rewrite (Fl eq_refl). cbn [app cap_newlines]. rewrite N.eqb_refl.
    assert (Lt : (r <? 3) = true) by (apply Nat.ltb_lt; lia).
    rewrite Lt. f_equal.
    apply (IH (S k) (S r)); [lia | exact R | exact FL | exact NL'].
Qed.

(** X13: [collapse_whitespace] is idempotent: collapsing a collapsed
    text changes nothing. *)
Theorem collapse_whitespace_idempotent (text : str) :
  collapse_whitespace (collapse_whitespace text) = collapse_whitespace text.
Proof.
  unfold collapse_whitespace. cbv zeta.
  set (L := collapse_loop (split NL (cap_newlines 0 text)) 0).
  assert (R : blank_runs_le2 0 L = true) by apply collapse_loop_runs.
  assert (F : Forall (fun l => nonblank l = false -> l = []) L)
    by apply collapse_loop_blank_empty.
  assert (N : Forall no_newline L)
    by (apply collapse_loop_lines, split_lines).
  assert (Hne : L <> []) by (apply collapse_loop_not_nil, split_not_nil).
  rewrite (@cap_newlines_fixed L 0 0); [|lia|assumption..].
  rewrite (split_join_lines Hne N), (collapse_loop_fixed 0 R F).
  reflexivity.
Qed.

End BlankLines.

(** ** The dedent *)

Section Dedent.

Lemma firstn_span (p : N -> bool) (m : nat) (l : str) :
  m <= span_len p l -> forallb p (firstn m l) = true.
Proof.
  revert l. induction m as [|m IH]; intros l H; [reflexivity|].
  destruct l as [|c l]; [reflexivity|].
  cbn [span_len] in H. destruct (p c) eqn:E; [|lia].
  cbn [firstn forallb]. rewrite E. apply IH. lia.
Qed.

Lemma fold_min_attained (xs : list nat) :
  forall a, fold_left Nat.min xs a = a \/ In (fold_left Nat.min xs a) xs.
Proof.
  induction xs as [|x xs IH]; intros a; [left; reflexivity|].
  cbn [fold_left]. destruct (IH (Nat.min a x)) as [E|E].
  - rewrite E. destruct (Nat.min_dec a x) as [M|M]; rewrite M; auto.
    right. left. reflexivity.
  - right. right. exact E.
Qed.

(** X14: the dedent of [clean_content] takes exactly the minimum
    indentation, whitespace only, off every line that is not blank; and
    that minimum is the indentation of one of those lines. *)
Theorem dedent_takes_common_indent (text l : str) :
  In l (split NL text) -> nonblank l = true ->
  l = firstn (min_indent_of (split NL text)) l
      ++ dedent (min_indent_of (split NL text)) l
  /\ length (firstn (min_indent_of (split NL text)) l)
     = min_indent_of (split NL text)
  /\ forallb isspace (firstn (min_indent_of (split NL text)) l) = true
  /\ exists l0, In l0 (split NL text) /\ nonblank l0 = true
                /\ indent_of l0 = min_indent_of (split NL text).
Proof.
  intros Hin B. set (lines := split NL text) in *.
  pose proof (@min_indent_le lines l Hin B) as M.
  rewrite indent_of_span in M.
  pose proof (span_len_le isspace l) as L.
  assert (D : dedent (min_indent_of lines) l = skipn (min_indent_of lines) l).
  { unfold dedent. destruct l as [|c l]; [discriminate B|].
    cbn [truthy andb].
    assert (E : (min_indent_of lines <=? length (c :: l)) = true)
      by (apply Nat.leb_le; lia).
    rewrite E. reflexivity. }
  split; [|split; [|split]].
  - rewrite D, firstn_skipn. reflexivity.
  - apply firstn_length_le. lia.
  - apply firstn_span. exact M.
  - unfold min_indent_of.
    assert (F : In l (filter (fun line => truthy (strip line)) lines))
      by (apply filter_In; split; assumption).
    destruct (filter (fun line => truthy (strip line)) lines)
      as [|x xs] eqn:E; [contradiction|].
    assert (X : forall y, In y (x :: xs) -> In y lines /\ nonblank y = true).
    { intros y Hy. rewrite <- E in Hy. apply filter_In in Hy. exact Hy. }
    destruct (fold_min_attained (List.map indent_of xs) (indent_of x))
      as [A|A].
    + exists x. destruct (X x (or_introl eq_refl)) as [X1 X2].
      split; [exact X1|]. split; [exact X2|]. symmetry. exact A.
    + apply in_map_iff in A. destruct A as [y [Ey Hy]].
      exists y. destruct (X y (or_intror Hy)) as [X1 X2].
      split; [exact X1|]. split; [exact X2 | exact Ey].
Qed.

Lemma dedent_takes_common_indent_witness :
  u "        return 1" = u "    " ++ u "    return 1"
  /\ min_indent_of (split NL indented_block) = 4.
Proof.
  destruct (@dedent_takes_common_indent indented_block (u "        return 1"))
    as [A [B _]].
  - vm_compute. right. left. reflexivity.
  - vm_compute. reflexivity.
  - split; [exact A|]. rewrite <- B. vm_compute. reflexivity.
Defined.

End Dedent.

(** ** The document *)

Section Document.

Lemma split_line_then (l X : str) :
  no_newline l -> split NL (l ++ NL :: X) = l :: split NL X.
Proof.
  intros H. rewrite split_app_newline, (@split_no_newline l H). reflexivity.
Qed.

(** A line that is not blank, in front of more lines, goes through
    [collapse_whitespace] as it is. *)
Lemma collapse_head_line (l : str) (rest : list str) :
  no_newline l -> nonblank l = true -> rest <> [] ->
  forall r k,
    collapse_loop (split NL (cap_newlines r (join [NL] (l :: rest)))) k
    = l :: collapse_loop (split NL (cap_newlines 1 (join [NL] rest))) 0.
Proof.
  intros Hl B Hr r k. rewrite join_cons by exact Hr.
  rewrite cap_newlines_after_text;
    [|exact Hl|intros E; subst l; discriminate B].
  rewrite (split_line_then _ Hl). cbn [collapse_loop].
  fold (nonblank l). rewrite B. reflexivity.
Qed.

Lemma no_newline_check (s : str) :
  forallb (fun c => negb (c =? NL)%N) s = true -> no_newline s.
Proof.
  intros H. unfold no_newline. apply Forall_forall. intros c Hc.
  rewrite forallb_forall in H. apply H in Hc.
  apply negb_true_iff in Hc. apply N.eqb_neq. exact Hc.
Qed.

Lemma digit_not_newline (n : N) : digit n <> NL.
Proof. unfold digit, NL. generalize (n mod 10)%N. intros x. lia. Qed.

Lemma date_line (now : datetime) : no_newline (u "date: " ++ strftime_ymd now).
Proof.
  unfold no_newline. apply Forall_app. split.
  - apply no_newline_check. vm_compute. reflexivity.
  - unfold strftime_ymd.
    repeat constructor; try apply digit_not_newline; discriminate.
Qed.

(** X15: whatever the turns, the document starts with the five lines of
    the front matter: the rule, the title in quotes, the date of the
    day, the fixed tags, the rule. (A title is one line.) *)
Theorem document_starts_with_front_matter (now : datetime)
        (turns : list turn) (title : str) :
  no_newline title ->
  exists rest,
    document_lines now turns title
    = [u "---";
       u "title: " ++ [DQUOTE] ++ title ++ [DQUOTE];
       u "date: " ++ strftime_ymd now;
       u "tags: [claude-code, conversation]";
       u "---"] ++ rest.
Proof.
  intros Ht. unfold document_lines, format_markdown. cbv zeta.
  rewrite collapse_whitespace_lines. unfold front_matter. cbn [app].
  assert (T : no_newline (u "title: " ++ [DQUOTE] ++ title ++ [DQUOTE])).
  { unfold no_newline. apply Forall_app. split.
    - apply no_newline_check. vm_compute. reflexivity.
    - constructor; [discriminate|]. apply Forall_app.
      split; [exact Ht | repeat constructor; discriminate]. }
  assert (TB : nonblank (u "title: " ++ [DQUOTE] ++ title ++ [DQUOTE]) = true).
  { change (u "title: ") with (116%N :: skipn 1 (u "title: ")).
    apply strip_head. reflexivity. }
  assert (DB : nonblank (u "date: " ++ strftime_ymd now) = true).
  { change (u "date: ") with (100%N :: skipn 1 (u "date: ")).
    apply strip_head. reflexivity. }
  rewrite collapse_head_line;
    [|apply no_newline_check; vm_compute; reflexivity
     |vm_compute; reflexivity|discriminate].
  rewrite collapse_head_line; [|exact T|exact TB|discriminate].
  rewrite collapse_head_line; [|apply date_line|exact DB|discriminate].
  rewrite collapse_head_line;
    [|apply no_newline_check; vm_compute; reflexivity
     |vm_compute; reflexivity|discriminate].
  rewrite collapse_head_line;
    [|apply no_newline_check; vm_compute; reflexivity
     |vm_compute; reflexivity|discriminate].
  eexists. reflexivity.
Qed.

Lemma document_starts_with_front_matter_witness :
  firstn 5 (document_lines clock_nov4 [short_prompt] (u "Notes"))
  = [u "---"; u "title: " ++ [DQUOTE] ++ u "Notes" ++ [DQUOTE];
     u "date: 2026-11-04"; u "tags: [claude-code, conversation]"; u "---"].
Proof.
  destruct (@document_starts_with_front_matter clock_nov4 [short_prompt]
              (u "Notes")) as [rest E].
  - repeat constructor; discriminate.
  - rewrite E. reflexivity.
Defined.

Lemma in_split_join_part (l part : str) (ls : list str) :
  In part ls -> In l (split NL part) -> In l (split NL (join [NL] ls)).
Proof.
  intros H Hl. rewrite split_join by (intros E; rewrite E in H; exact H).
  apply in_flat_map. exists part. split; assumption.
Qed.

Lemma rendered_line (now : datetime) (turns : list turn) (title : str)
      (t : turn) (part l : str) :
  In t turns -> In part (render_turn t) -> In l (split NL part) ->
  nonblank l = true ->
  In l (document_lines now turns title).
Proof.
  intros Ht Hp Hl B. unfold document_lines, format_markdown. cbv zeta.
  apply collapse_whitespace_keeps; [exact B|].
  apply (@in_split_join_part l part); [|exact Hl].
  apply in_or_app. right. apply in_flat_map. exists t. split; assumption.
Qed.

Lemma clean_loop_lines (m : nat) (lines : list str) :
  Forall no_newline lines ->
  forall cleaned prev,
    Forall no_newline cleaned ->
    Forall no_newline (clean_loop m lines cleaned prev).
Proof.
  induction 1 as [|l lines Hl _ IH]; intros cleaned prev F; [exact F|].
  cbn [clean_loop].
  repeat match goal with
         | |- context [if ?b then _ else _] => destruct b
         end; apply IH; try assumption;
    apply Forall_app; (split; [assumption|]); constructor;
      try constructor; try assumption.
  unfold no_newline. rewrite <- (firstn_skipn m l) in Hl.
  apply Forall_app in Hl. tauto.
Qed.

Lemma clean_content_lines_lines (text : str) :
  Forall no_newline (clean_content_lines text).
Proof.
  unfold clean_content_lines. cbv zeta.
  apply clean_loop_lines; [apply split_lines | constructor].
Qed.

(** X16: an assistant turn whose content is not blank is rendered under
    the heading [## Claude], and every line of its normalized content
    that is not blank is a line of the document. *)
Theorem assistant_turn_is_rendered (now : datetime) (turns : list turn)
        (title : str) (t : turn) :
  In t turns -> type t = claude -> nonblank (content t) = true ->
  In (u "## Claude") (document_lines now turns title)
  /\ forall l, In l (clean_content_lines (strip (content t))) ->
               nonblank l = true ->
               In l (document_lines now turns title).
Proof.
  intros Ht C B.
  assert (R : render_turn t
              = [[]; u "## Claude"; [];
                 clean_content (strip (content t)); []]).
  { unfold render_turn. unfold nonblank in B. rewrite B, C. reflexivity. }
  split.
  - apply (@rendered_line now turns title t (u "## Claude"));
      [exact Ht | rewrite R; right; left; reflexivity
       | left; reflexivity | reflexivity].
  - intros l Hl Bl.
    apply (@rendered_line now turns title t
             (clean_content (strip (content t))));
      [exact Ht | rewrite R; do 3 right; left; reflexivity | | exact Bl].
    unfold clean_content. apply in_split_join; [exact Hl|].
    pose proof (clean_content_lines_lines (strip (content t))) as F.
    rewrite Forall_forall in F. apply F. exact Hl.
Qed.

Lemma assistant_turn_is_rendered_witness :
  In (u "## Claude") (document_lines clock_nov4 [reply_turn] (u "Notes"))
  /\ In (u "   x = 1") (document_lines clock_nov4 [reply_turn] (u "Notes")).
Proof.
  destruct (@assistant_turn_is_rendered clock_nov4 [reply_turn] (u "Notes")
              reply_turn (or_introl eq_refl) eq_refl eq_refl) as [A B].
  split; [exact A|]. apply B; vm_compute; [|reflexivity].
  right. right. left. reflexivity.
Defined.

Lemma flat_map_filter_nil {A B} (f : A -> list B) (p : A -> bool)
      (xs : list A) :
  (forall x, p x = false -> f x = []) ->
  flat_map f (filter p xs) = flat_map f xs.
Proof.
  intros H. induction xs as [|x xs IH]; [reflexivity|].
  cbn [filter flat_map]. destruct (p x) eqn:E.
  - cbn [flat_map]. rewrite IH. reflexivity.
  - rewrite (H x E), IH. reflexivity.
Qed.

(** X17: turns whose content is blank leave no trace in the document:
    rendering with or without them gives the same text. *)
Theorem blank_turns_are_not_rendered (now : datetime) (turns : list turn)
        (title : str) :
  format_markdown now (filter (fun t => nonblank (content t)) turns) title
  = format_markdown now turns title.
Proof.
  unfold format_markdown. cbv zeta.
  rewrite flat_map_filter_nil; [reflexivity|].
  intros t B. unfold render_turn. unfold nonblank in B. rewrite B.
  reflexivity.
Qed.

(** X18: a user turn whose header is not empty and at most 80 characters
    long is rendered with that header as its H1 heading, unchanged. *)
Theorem short_header_is_kept (now : datetime) (turns : list turn)
        (title : str) (t : turn) :
  In t turns -> type t = user ->
  header_of t <> [] -> length (header_of t) <= 80 ->
  In (u "# " ++ header_of t) (document_lines now turns title).
Proof.
  intros Ht U Hne L.
  destruct (render_user_turn t U Hne) as [rest R].
  assert (T : truncate_header (header_of t) = header_of t).
  { unfold truncate_header.
    assert (E : (80 <? length (header_of t)) = false)
      by (apply Nat.ltb_ge; exact L).
    rewrite E. reflexivity. }
  rewrite T in R.
  apply (@rendered_line now turns title t (u "# " ++ header_of t));
    [exact Ht | rewrite R; left; reflexivity | | apply strip_head; reflexivity].
  rewrite split_no_newline; [left; reflexivity|].
  unfold no_newline. apply Forall_app. split.
  - repeat constructor; discriminate.
  - apply header_of_line.
Qed.

Lemma short_header_is_kept_witness :
  In (u "# hello") (document_lines clock_nov4 [short_prompt] (u "Notes")).
Proof.
  apply (@short_header_is_kept clock_nov4 [short_prompt] (u "Notes")
           short_prompt (or_introl eq_refl) eq_refl).
  - discriminate.
  - vm_compute. repeat constructor.
Defined.

End Document.

(** ** The clock *)

Section Clock.

Lemma cap_newlines_app_text (P X : str) (c : N) :
  c <> NL ->
  forall r,
    cap_newlines r (P ++ c :: X) = cap_newlines r P ++ c :: cap_newlines 0 X.
Proof.
  intros Hc. apply N.eqb_neq in Hc.
  induction P as [|d P IH]; intros r; cbn [app cap_newlines].
  - rewrite Hc. reflexivity.
  - destruct (d =? NL)%N; [destruct (r <? 3)|]; rewrite IH; reflexivity.
Qed.

Lemma collapse_loop_app_text (L L' : list str) (D : str) :
  nonblank D = true ->
  forall k,
    collapse_loop (L ++ D :: L') k
    = collapse_loop L k ++ D :: collapse_loop L' 0.
Proof.
  intros B. induction L as [|x L IH]; intros k; cbn [app collapse_loop].
  - fold (nonblank D). rewrite B. reflexivity.
  - destruct (negb (truthy (strip x))).
    + destruct (S k <=? 2); rewrite IH; reflexivity.
    + rewrite IH. reflexivity.
Qed.

(** The document is the same text around its date line, whatever the
    clock reads. *)
Lemma format_markdown_around_date (turns : list turn) (title : str) :
  exists head rest : list str,
    forall now,
      format_markdown now turns title
      = join [NL] (head ++ (u "date: " ++ strftime_ymd now) :: rest).
Proof.
  exists (collapse_loop
            (split NL (cap_newlines 0
                         (u "---" ++ NL :: u "title: " ++ DQUOTE :: title)
                       ++ [DQUOTE])) 0).
  exists (collapse_loop
            (split NL (cap_newlines 1
                         (join [NL]
                            (u "tags: [claude-code, conversation]"
                             :: u "---" :: [] :: flat_map render_turn turns))))
            0).
  intros now. unfold format_markdown, collapse_whitespace. cbv zeta.
  f_equal. unfold front_matter. cbn [app].
  rewrite 3 join_cons by discriminate.
  assert (DB : nonblank (u "date: " ++ strftime_ymd now) = true).
  { change (u "date: ") with (100%N :: skipn 1 (u "date: ")).
    apply strip_head. reflexivity. }
  assert (DN : u "date: " ++ strftime_ymd now <> []).
  { intros E. rewrite E in DB. discriminate DB. }
  set (D := u "date: " ++ strftime_ymd now) in *.
  set (T := join [NL] _).
  match goal with
  | |- collapse_loop (split NL (cap_newlines 0 ?t)) 0 = _ =>
    assert (E : t = (u "---" ++ NL :: u "title: " ++ DQUOTE :: title)
                    ++ DQUOTE :: NL :: D ++ NL :: T)
  end.
  { rewrite <- !app_assoc. cbn [app]. rewrite <- !app_assoc. reflexivity. }
  rewrite E, cap_newlines_app_text by discriminate.
  cbn [cap_newlines]. rewrite N.eqb_refl. cbn [Nat.ltb Nat.leb].
  rewrite (@cap_newlines_after_text D T (date_line now) DN).
  match goal with
  | |- collapse_loop (split NL (?a ++ DQUOTE :: NL :: ?b)) 0 = _ =>
    change (a ++ DQUOTE :: NL :: b) with (a ++ [DQUOTE] ++ NL :: b);
    rewrite (app_assoc a [DQUOTE] (NL :: b))
  end.
  rewrite split_app_newline, (@split_line_then D _ (date_line now)).
  apply collapse_loop_app_text. exact DB.
Qed.

(** C6, as stated, fails: the same transcript and title, converted on
    two days, give two documents. *)
Lemma convert_depends_on_the_day :
  convert clock_nov4 hello_export (u "Greeting")
  <> convert clock_nov5 hello_export (u "Greeting").
Proof.
  intros H.
  apply (f_equal (fun r => match r with
                           | Some s => nth 37 s 0%N
                           | None => 0%N
                           end)) in H.
  vm_compute in H. discriminate.
Qed.

(** C6, amended: the document is a function of the transcript, of the
    title and of the calendar day on which the conversion runs, and the
    day is read for the date line alone. For a transcript and a title,
    either no turn is parsed and no run produces a document, or every
    run produces the same lines before and the same lines after the line
    [date: YYYY-MM-DD] of its day; so two runs on the same day produce
    the same document. *)
Theorem convert_reads_clock_for_date_only (content title : str) :
  (parse_export content = []
   /\ forall now, convert now content title = None)
  \/ (parse_export content <> []
      /\ exists head rest : list str,
           forall now,
             convert now content title
             = Some (join [NL]
                       (head ++ (u "date: " ++ strftime_ymd now) :: rest))).
Proof.
  unfold convert. cbv zeta.
  destruct (format_markdown_around_date (parse_export content) title)
    as [head [rest H]].
  destruct (parse_export content) as [|t turns] eqn:E.
  - left. split; reflexivity.
  - right. split; [discriminate|].
    exists head, rest. intros now. rewrite H. reflexivity.
Qed.

Lemma convert_reads_clock_for_date_only_witness :
  convert clock_nov4 hello_export (u "Greeting") <> None
  /\ convert clock_nov4 hello_export (u "Greeting")
     = convert clock_nov4_evening hello_export (u "Greeting").
Proof.
  split; [vm_compute; discriminate|].
  destruct (convert_reads_clock_for_date_only hello_export (u "Greeting"))
    as [[_ H]|[_ [head [rest H]]]]; rewrite !H; reflexivity.
Defined.

End Clock.

(** ** The hook, further *)

Section Hook.
Import Blocker.

(** X19: the hook never blocks unless its input carries a command that
    is a non-empty string and matches a blocked pattern: undecodable
    input, a missing or empty command, a command that is not a string
    are never blocked. *)
Theorem blocks_only_matching_commands (stdin : option json) :
  blocks (main stdin) = true ->
  exists h c,
    stdin = Some h /\ extract_command h = Some (JStr c) /\ c <> []
    /\ exists p, In p BLOCKED_PATTERNS /\ matches p c = true.
Proof.
  destruct stdin as [h|]; [|discriminate].
  destruct (extract_command h) as [v|] eqn:E;
    [|unfold main; rewrite E; discriminate].
  destruct v as [|b|z|c|items|fields];
    try (unfold main; rewrite E; cbn [truth];
         repeat match goal with
                | |- context [if ?b then _ else _] => destruct b
                end; discriminate).
  rewrite (main_on_command h E). intros B.
  exists h, c. split; [reflexivity|]. split; [exact E|].
  destruct c as [|a c]; [discriminate B|].
  split; [discriminate|]. apply check_dangerous_spec.
  cbn [truthy andb] in B. destruct (fst (check_dangerous (a :: c)));
    [reflexivity | discriminate B].
Qed.

Lemma blocks_only_matching_commands_witness :
  exists h c,
    Some (bash_call (u "rm -rf /")) = Some h
    /\ extract_command h = Some (JStr c) /\ c <> []
    /\ exists p, In p BLOCKED_PATTERNS /\ matches p c = true.
Proof.
  apply (@blocks_only_matching_commands (Some (bash_call (u "rm -rf /")))).
  vm_compute. reflexivity.
Defined.

(** X20: the hook fails open: it exits 0 and prints nothing when the
    input is not JSON, is not an object, has no [tool_input] or one that
    is not an object, has no [command] there, or has a command that is
    null, false, zero or empty. *)
Theorem hook_fails_open (h : json) :
  main None = Exit 0 []
  /\ ((forall fields, h <> JObj fields) -> main (Some h) = Exit 0 [])
  /\ (forall fields,
         h = JObj fields ->
         (dict_get fields (u "tool_input") = None
          \/ (exists v, dict_get fields (u "tool_input") = Some v
                        /\ forall inner, v <> JObj inner)
          \/ (exists inner, dict_get fields (u "tool_input") = Some (JObj inner)
                            /\ dict_get inner (u "command") = None)
          \/ (exists inner v,
                 dict_get fields (u "tool_input") = Some (JObj inner)
                 /\ dict_get inner (u "command") = Some v
                 /\ truth v = false)) ->
         main (Some h) = Exit 0 []).
Proof.
  split; [reflexivity|]. split.
  - intros H. unfold main, extract_command.
    destruct h; try reflexivity. exfalso. exact (H _ eq_refl).
  - intros fields E H. subst h. unfold main, extract_command.
    destruct H as [H|[[v [H Hv]]|[[inner [H C]]|[inner [v [H [C T]]]]]]];
      rewrite H.
    + reflexivity.
    + destruct v; try reflexivity. exfalso. exact (Hv _ eq_refl).
    + rewrite C. reflexivity.
    + rewrite C, T. reflexivity.
Qed.

Lemma hook_fails_open_witness : main (Some no_command) = Exit 0 [].
Proof.
  refine (proj2 (proj2 (hook_fails_open no_command)) _ eq_refl _).
  right. right. left. eexists. split; reflexivity.
Defined.

(** X21: a command that is neither a string nor null, false, zero or
    empty (a non-empty array or object, a non-zero number, true) makes
    the hook end with the [TypeError] of [re.search]: it exits neither
    with 0 nor with 2. *)
Theorem hook_raises_on_non_string (h : json) (v : json) :
  extract_command h = Some v -> truth v = true ->
  (forall s, v <> JStr s) ->
  main (Some h) = TypeError.
Proof.
  intros E T N. unfold main. rewrite E, T. cbn [negb].
  destruct v; try reflexivity. exfalso. exact (N _ eq_refl).
Qed.

Lemma hook_raises_on_non_string_witness :
  main (Some list_command) = TypeError.
Proof.
  apply (@hook_raises_on_non_string list_command (JArr [JStr (u "ls")]));
    [reflexivity | reflexivity | discriminate].
Defined.

Lemma search_prefix (r : regex) (pre s : str) :
  search true r s = true -> search true r (pre ++ s) = true.
Proof.
  intros H. induction pre as [|c pre IH]; [exact H|].
  cbn [app search]. rewrite IH. apply orb_true_r.
Qed.

(** X22: text put in front of a command does not hide it: a command
    that [check_dangerous] blocks, or [check_warning] warns about, is
    still blocked, or warned about, behind any prefix; and the hook
    still blocks it. *)
Theorem prefix_keeps_verdict (pre c : str) :
  (fst (check_dangerous c) = true ->
   fst (check_dangerous (pre ++ c)) = true
   /\ blocks (main (Some (bash_call (pre ++ c)))) = true)
  /\ (fst (check_warning c) = true -> fst (check_warning (pre ++ c)) = true).
Proof.
  split.
  - intros H.
    assert (D : fst (check_dangerous (pre ++ c)) = true).
    { apply check_dangerous_spec in H. destruct H as [p [Hin Hm]].
      apply check_dangerous_spec. exists p. split; [exact Hin|].
      apply search_prefix. exact Hm. }
    split; [exact D|].
    rewrite (main_on_command (bash_call (pre ++ c))
               (extract_bash_call (pre ++ c))), D.
    destruct (pre ++ c) as [|a x] eqn:E; [|reflexivity].
    exfalso. apply app_eq_nil in E. destruct E as [_ E]. subst c.
    apply check_dangerous_spec in H. destruct H as [p [Hin Hm]].
    pose proof no_pattern_matches_empty as N0.
    rewrite forallb_forall in N0. apply N0 in Hin.
    rewrite Hm in Hin. discriminate.
  - unfold check_warning. intros H.
    destruct (filter (fun p => matches p c) WARNING_PATTERNS)
      as [|p ps] eqn:F; [discriminate H|].
    assert (Hp : In p (filter (fun p => matches p c) WARNING_PATTERNS))
      by (rewrite F; left; reflexivity).
    apply filter_In in Hp. destruct Hp as [Hin Hm].
    assert (G : In p (filter (fun p => matches p (pre ++ c))
                             WARNING_PATTERNS)).
    { apply filter_In. split; [exact Hin|]. apply search_prefix. exact Hm. }
    destruct (filter (fun p => matches p (pre ++ c)) WARNING_PATTERNS);
      [contradiction | reflexivity].
Qed.

Lemma prefix_keeps_verdict_witness :
  blocks (main (Some (bash_call (u "cd /tmp && " ++ u "rm -rf /")))) = true.
Proof.
  apply (proj1 (prefix_keeps_verdict (u "cd /tmp && ") (u "rm -rf /"))).
  vm_compute. reflexivity.
Defined.

(** X23: the patterns are tried in the order of the list, and the reason
    given names the first one that matches. *)
Theorem reason_names_first_match (c : str) (before after : list pattern)
        (p : pattern) :
  BLOCKED_PATTERNS = before ++ p :: after ->
  matches p c = true ->
  (forall q, In q before -> matches q c = false) ->
  check_dangerous c = (true, blocked_prefix ++ u (source p)).
Proof.
  intros E M F. unfold check_dangerous. rewrite E. clear E.
  induction before as [|q before IH]; cbn [app find].
  - rewrite M. reflexivity.
  - rewrite (F q (or_introl eq_refl)). apply IH.
    intros x Hx. apply F. right. exact Hx.
Qed.

Lemma reason_names_first_match_witness :
  check_dangerous two_offences
  = (true,
     blocked_prefix ++ u (source (nth 2 BLOCKED_PATTERNS (Pattern "" Eps)))).
Proof.
  apply (@reason_names_first_match two_offences
           (firstn 2 BLOCKED_PATTERNS) (skipn 3 BLOCKED_PATTERNS)
           (nth 2 BLOCKED_PATTERNS (Pattern "" Eps))).
  - reflexivity.
  - reflexivity.
  - intros q [H|[H|[]]]; subst q; reflexivity.
Defined.

End Hook.

(** ** Variants of a command *)

Section Variants.
Import Blocker.

Lemma hook_on_bash_call (c : str) :
  blocks (main (Some (bash_call c))) = truthy c && fst (check_dangerous c).
Proof.
  rewrite (main_on_command (bash_call c) (extract_bash_call c)).
  destruct (truthy c && fst (check_dangerous c)); reflexivity.
Qed.

Lemma find_same {A} (f g : A -> bool) (l : list A) :
  (forall x, In x l -> f x = g x) ->
  (exists x, find f l = Some x) <-> (exists x, find g l = Some x).
Proof.
  intros H. induction l as [|x l IH]; cbn [find].
  - split; intros [y E]; discriminate.
  - rewrite <- (H x (or_introl eq_refl)). destruct (f x).
    + split; intros _; exists x; reflexivity.
    + apply IH. intros y Hy. apply H. right. exact Hy.
Qed.

(** Both checks and the hook give the same verdict on two commands
    that every pattern of the two lists matches alike. *)
Lemma same_matches_same_verdict (c c' : str) :
  length c = length c' ->
  (forall p, In p BLOCKED_PATTERNS \/ In p WARNING_PATTERNS ->
             matches p c = matches p c') ->
  fst (check_dangerous c) = fst (check_dangerous c')
  /\ fst (check_warning c) = fst (check_warning c')
  /\ blocks (main (Some (bash_call c)))
     = blocks (main (Some (bash_call c'))).
Proof.
  intros L H.
  assert (D : fst (check_dangerous c) = fst (check_dangerous c')).
  { apply eq_true_iff_eq. rewrite !check_dangerous_spec.
    split; intros [p [Hin Hm]]; exists p; (split; [exact Hin|]).
    - rewrite <- (H p (or_introl Hin)). exact Hm.
    - rewrite (H p (or_introl Hin)). exact Hm. }
  split; [exact D|]. split.
  - unfold check_warning.
    assert (F : filter (fun p => matches p c) WARNING_PATTERNS
                = filter (fun p => matches p c') WARNING_PATTERNS).
    { apply filter_ext_in. intros p Hp. apply H. right. exact Hp. }
    rewrite F. destruct (filter _ _); reflexivity.
  - rewrite !hook_on_bash_call, D. f_equal.
    destruct c, c'; try reflexivity; discriminate L.
Qed.

(** X24: the hook itself ignores case: on two commands that are case
    variants of each other it exits with the same status. *)
Theorem hook_ignores_case (c c' : str) :
  case_variant c c' ->
  blocks (main (Some (bash_call c))) = blocks (main (Some (bash_call c'))).
Proof.
  intros V. apply same_matches_same_verdict.
  - exact (Forall2_length V).
  - intros p Hp. apply matches_case; [apply in_or_app; exact Hp | exact V].
Qed.

Lemma hook_ignores_case_witness :
  blocks (main (Some (bash_call force_push_shouted))) = true.
Proof.
  rewrite <- (@hook_ignores_case force_push force_push_shouted).
  - reflexivity.
  - unfold force_push, force_push_shouted. repeat constructor.
Defined.

Lemma isspace_in_whitespace (a : N) : isspace a = true -> In a whitespace.
Proof.
  intros H. apply isspace_spec in H. unfold whitespace. cbn [In]. lia.
Qed.

Lemma whitespace_fold (a : N) :
  isspace a = true -> sre_fold a = a /\ ascii_upper a = a.
Proof.
  intros H. pose proof H as S. apply isspace_spec in S. split.
  - destruct (sre_fold_cases a) as [E|[_ E]]; [exact E | lia].
  - unfold ascii_upper.
    destruct ((97 <=? a) && (a <=? 122))%N eqn:R; [|reflexivity].
    apply andb_prop in R. destruct R as [R1 R2].
    apply N.leb_le in R1, R2. lia.
Qed.

Lemma chr_spaceless (p a : N) :
  isspace (sre_fold p) = false -> isspace a = true ->
  chr_matches true p a = false.
Proof.
  intros P A. unfold chr_matches.
  rewrite (proj1 (whitespace_fold a A)).
  apply N.eqb_neq. intros E. rewrite <- E in P. congruence.
Qed.

Lemma cls_spaceless (ranges : list (N * N)) (a : N) :
  forallb (fun w => negb (in_ranges ranges w)) whitespace = true ->
  isspace a = true -> cls_matches true ranges a = false.
Proof.
  intros P A. unfold cls_matches.
  destruct (whitespace_fold a A) as [F U]. rewrite F, U.
  rewrite forallb_forall in P.
  specialize (P a (isspace_in_whitespace a A)).
  apply negb_true_iff in P. rewrite P. reflexivity.
Qed.

Lemma blank_alike_space (a b : N) : blank_alike a b -> isspace a = isspace b.
Proof. intros [E|[A [B _]]]; [subst; reflexivity | congruence]. Qed.

Lemma blank_alike_newline (a b : N) :
  blank_alike a b -> (a =? NL)%N = (b =? NL)%N.
Proof.
  intros [E|[_ [_ [A B]]]]; [subst; reflexivity|].
  apply N.eqb_neq in A, B. congruence.
Qed.

Lemma at_eol_spacing (s s' : str) :
  spacing_variant s s' -> at_eol s = at_eol s'.
Proof.
  intros H. destruct H as [|a b s s' Hab Hs]; [reflexivity|].
  destruct Hs; simpl; try reflexivity.
  apply blank_alike_newline; exact Hab.
Qed.

(** A pattern without whitespace literals cannot tell one whitespace
    character from another, the newline apart. *)
Lemma rmatch_spacing (r : regex) :
  spaceless r = true ->
  forall (s s' : str) (k k' : str -> bool),
    spacing_variant s s' ->
    (forall t t', spacing_variant t t' -> k t = k' t') ->
    rmatch true r s k = rmatch true r s' k'.
Proof.
  induction r as [|p| | |ranges|r1 IH1 r2 IH2|r1 IH1 r2 IH2|r1 IH1| |r1 IH1];
    intros W s s' k k' Hs Hk; cbn [rmatch]; cbn [spaceless] in W.
  - apply Hk; exact Hs.
  - destruct Hs as [|a b s s' Hab Hs]; [reflexivity|].
    apply negb_true_iff in W.
    destruct Hab as [E|[A [B _]]].
    + subst b. f_equal. apply Hk; exact Hs.
    + rewrite (chr_spaceless p a W A), (chr_spaceless p b W B). reflexivity.
  - destruct Hs as [|a b s s' Hab Hs]; [reflexivity|].
    rewrite (blank_alike_newline Hab). f_equal. apply Hk; exact Hs.
  - destruct Hs as [|a b s s' Hab Hs]; [reflexivity|].
    rewrite (blank_alike_space Hab). f_equal. apply Hk; exact Hs.
  - destruct Hs as [|a b s s' Hab Hs]; [reflexivity|].
    destruct Hab as [E|[A [B _]]].
    + subst b. f_equal. apply Hk; exact Hs.
    + rewrite (cls_spaceless ranges a W A), (cls_spaceless ranges b W B).
      reflexivity.
  - apply andb_prop in W. destruct W as [W1 W2].
    apply IH1; [exact W1 | exact Hs|].
    intros t t' Ht. apply IH2; [exact W2 | exact Ht | exact Hk].
  - apply andb_prop in W. destruct W as [W1 W2].
    f_equal; [apply IH1 | apply IH2]; assumption.
  - rewrite (Forall2_length Hs). generalize (length s') as n.
    intros n. revert s s' Hs.
    induction n as [|n IHn]; intros s s' Hs.
    + rewrite (Hk s s' Hs). reflexivity.
    + rewrite (Hk s s' Hs). f_equal.
      apply IH1; [exact W | exact Hs|]. intros t t' Ht.
      rewrite (Forall2_length Ht), (Forall2_length Hs). f_equal.
      apply IHn. exact Ht.
  - rewrite (at_eol_spacing Hs). f_equal. apply Hk; exact Hs.
  - f_equal; [|apply Hk; exact Hs]. f_equal.
    apply IH1; [exact W | exact Hs|]. reflexivity.
Qed.

Lemma search_spacing (r : regex) (s s' : str) :
  spaceless r = true -> spacing_variant s s' ->
  search true r s = search true r s'.
Proof.
  intros W. induction 1 as [|a b s s' Hab Hs IH]; [reflexivity|].
  cbn [search]. f_equal; [|exact IH].
  apply rmatch_spacing; [exact W | constructor; assumption | reflexivity].
Qed.

Lemma patterns_spaceless :
  forallb (fun p => spaceless (re p)) (BLOCKED_PATTERNS ++ WARNING_PATTERNS)
  = true.
Proof. vm_compute. reflexivity. Qed.

(** X25: the kind of whitespace does not matter: two commands that
    differ only in which whitespace character (other than the newline)
    stands where get the same verdict from both checks and the same exit
    status from the hook. *)
Theorem checks_ignore_kind_of_whitespace (c c' : str) :
  spacing_variant c c' ->
  fst (check_dangerous c) = fst (check_dangerous c')
  /\ fst (check_warning c) = fst (check_warning c')
  /\ blocks (main (Some (bash_call c)))
     = blocks (main (Some (bash_call c'))).
Proof.
  intros V. apply same_matches_same_verdict.
  - exact (Forall2_length V).
  - intros p Hp. apply search_spacing; [|exact V].
    pose proof patterns_spaceless as F. rewrite forallb_forall in F.
    apply F. apply in_or_app. exact Hp.
Qed.

Lemma checks_ignore_kind_of_whitespace_witness :
  spacing_variant spaced_rm tabbed_rm
  /\ blocks (main (Some (bash_call tabbed_rm))) = true.
Proof.
  assert (V : spacing_variant spaced_rm tabbed_rm).
  { unfold spaced_rm, tabbed_rm.
    repeat (apply Forall2_cons;
            [first [left; reflexivity
                   | right; repeat split; (reflexivity || discriminate)]|]).
    apply Forall2_nil. }
  split; [exact V|].
  rewrite <- (proj2 (proj2 (checks_ignore_kind_of_whitespace V))).
  reflexivity.
Defined.

End Variants.

(** ** The export finder *)

Section FinderFacts.
Import Finder.

Variable path : Type.
Variable glob_txt : path -> list path.
Variable name : path -> str.
Variable lower : str -> str.

Lemma filter_none {A} (f : A -> bool) (l : list A) :
  filter f l = [] <-> forall x, In x l -> f x = false.
Proof.
  induction l as [|a l IH]; simpl.
  - split; [intros _ x [] | reflexivity].
  - destruct (f a) eqn:E; split.
    + discriminate.
    + intros H. specialize (H a (or_introl eq_refl)). congruence.
    + intros H x [<-|I]; [exact E | apply IH; assumption].
    + intros H. apply IH. intros x I. apply H. right. exact I.
Qed.

Lemma find_export_files_cases (directory : path) :
  (filter (is_export_name name lower) (glob_txt directory) <> []
   /\ find_export_files glob_txt name lower directory
      = filter (is_export_name name lower) (glob_txt directory))
  \/ (filter (is_export_name name lower) (glob_txt directory) = []
      /\ find_export_files glob_txt name lower directory
         = glob_txt directory).
Proof.
  unfold find_export_files.
  destruct (filter (is_export_name name lower) (glob_txt directory))
    as [|f fs] eqn:E.
  - right. split; reflexivity.
  - left. split; [discriminate | reflexivity].
Qed.

(** X26: the finder never hides every file. It returns no file only for
    a directory without [txt] files; it returns only files of the
    directory's listing; it never leaves out a file whose name passes the
    test; and it returns a file whose name fails the test only when the
    name of no file of the listing passes. *)
Theorem find_export_files_falls_back (directory : path) :
  (find_export_files glob_txt name lower directory = []
   <-> glob_txt directory = [])
  /\ (forall f,
        In f (find_export_files glob_txt name lower directory) ->
        In f (glob_txt directory))
  /\ (forall f,
        In f (glob_txt directory) -> is_export_name name lower f = true ->
        In f (find_export_files glob_txt name lower directory))
  /\ (forall f g,
        In f (find_export_files glob_txt name lower directory) ->
        is_export_name name lower f = false ->
        In g (glob_txt directory) -> is_export_name name lower g = false).
Proof.
  destruct (find_export_files_cases directory) as [[N E]|[N E]]; rewrite E.
  - split; [|split; [|split]].
    + split; [intros H; contradiction|].
      intros H. rewrite H in N. contradiction.
    + intros f I. apply filter_In in I. tauto.
    + intros f I T. apply filter_In. tauto.
    + intros f g I F. apply filter_In in I. destruct I as [_ T]. congruence.
  - split; [|split; [|split]].
    + tauto.
    + exact (fun f I => I).
    + intros f I T. rewrite (proj1 (filter_none _ _) N f I) in T.
      discriminate.
    + intros f g _ _ I. exact (proj1 (filter_none _ _) N g I).
Qed.

End FinderFacts.
